(** * nvtxpy: a shallow embedding of [nvtxpy/nvtx.py]

    The module wraps three entry points of NVIDIA's NVTX library (mark,
    range push, range pop), encodes event attributes in a fixed-layout
    record, and keeps per-name call statistics.  This file embeds the
    module's functions and states its properties.

    Conventions.
    - A narrow string (Python 2 [str], Python 3 [bytes]) is a [string]
      of bytes; this is what [c_char_p] accepts.
    - A fixed-width ctypes integer is a [Z] with the wrap-around written
      out; a [c_double] is a primitive binary64 float.
    - Mutable Python objects (the [_stats] dict, the lists it holds, the
      copies [getstats] hands out) live in a store indexed by object
      identity, so aliasing is visible.
    - Effects are explicit: a computation maps a [world] to an outcome
      (a value or a raised exception) and a new [world]. *)

From Stdlib Require Import ZArith PrimFloat SpecFloat FloatOps FloatAxioms HexadecimalString.
From stdpp Require Import gmap strings list.

Open Scope Z_scope.

(** ** Python values and outcomes *)

(** The values the module handles: [None], booleans, integers, floats,
    narrow strings and text. *)
Inductive pyval :=
  | VNone
  | VBool (b : bool)
  | VInt (z : Z)
  | VFloat (f : float)
  | VBytes (s : string)
  | VStr (s : string).

Inductive exn :=
  | AttributeError (msg : string)
  | TypeError (msg : string)
  | IndexError (msg : string)
  | OverflowError (msg : string)
  | KeyError (msg : string)
  | OSError (msg : string)
  | ValueError (msg : string)
  | UserError (tag : string).

Inductive outcome (A : Type) :=
  | Ok (a : A)
  | Raise (e : exn).
Arguments Ok {A} a.
Arguments Raise {A} e.

(** ** Library Locator: [_get_cuda_nvtx_path] *)

Module Locator.

Section Locator.

(** [os.path.join] of the running platform ([posixpath] or [ntpath]). *)
Variable os_path_join : string → string → string.

(** [os.environ] is a mapping from names to values; [sys.platform] a
    string. *)
Definition _get_cuda_nvtx_path
    (environ : gmap string string) (platform : string) : option string :=
  let base := environ !! "NVTXPY_CUDA_TOOLKIT"%string in
  let base :=
    match base with
    | None =>
        if String.eqb platform "darwin" then
          Some "/Developer/NVIDIA/CUDA-7.5/lib"%string
        else if String.prefix "linux" platform then
          Some "/usr/local/cuda-7.0/lib64"%string
        else None
    | Some b => Some b
    end in
  let ext :=
    if String.eqb platform "darwin" then ".dylib"%string
    else if String.prefix "linux" platform then ".so"%string
    else if String.eqb platform "win32" then ".dll"%string
    else ""%string in
  match base with
  | Some b => Some (os_path_join b ("libnvToolsExt" +:+ ext))
  | None => None
  end.

End Locator.

(** [posixpath.join] on two components. *)
Definition posixpath_join (a b : string) : string :=
  if String.prefix "/" b then b
  else if orb (String.eqb a "") (String.eqb (String.substring (String.length a - 1) 1 a) "/")
       then a +:+ b
       else a +:+ "/" +:+ b.

End Locator.

(** ** Event Record Codec *)

Module Codec.

Definition _NVTX_VERSION : Z := 1.

Definition _NVTX_COLOR_UNKNOWN : Z := 0.
Definition _NVTX_COLOR_ARGB : Z := 1.

Definition _NVTX_PAYLOAD_UNKNOWN : Z := 0.
Definition _NVTX_PAYLOAD_TYPE_UNSIGNED_INT64 : Z := 1.
Definition _NVTX_PAYLOAD_TYPE_INT64 : Z := 2.
Definition _NVTX_PAYLOAD_TYPE_DOUBLE : Z := 3.

Definition _NVTX_MESSAGE_UNKNOWN : Z := 0.
Definition _NVTX_MESSAGE_TYPE_ASCII : Z := 1.
Definition _NVTX_MESSAGE_TYPE_UNICODE : Z := 2.

(** *** ctypes scalar fields

    Assigning a Python integer to a ctypes integer field does no overflow
    checking: the value is reduced to the field's width. *)

Definition c_uint (w : Z) (v : Z) : Z := v mod 2 ^ w.

Definition c_int (w : Z) (v : Z) : Z := (v + 2 ^ (w - 1)) mod 2 ^ w - 2 ^ (w - 1).

(** The binary64 image of a float, and back ([c_double]).  All NaNs
    share the quiet-NaN pattern. *)
Definition bits_of_double (f : float) : Z :=
  match Prim2SF f with
  | S754_zero s => if s then 2 ^ 63 else 0
  | S754_infinity s => (if s then 2 ^ 63 else 0) + 2047 * 2 ^ 52
  | S754_nan => 2047 * 2 ^ 52 + 2 ^ 51
  | S754_finite s m e =>
      (if s then 2 ^ 63 else 0) +
      (if Z.pos m <? 2 ^ 52 then Z.pos m
       else (e + 1075) * 2 ^ 52 + (Z.pos m - 2 ^ 52))
  end.

Definition double_of_bits (b : Z) : float :=
  let s := Z.testbit b 63 in
  let E := Z.land (Z.shiftr b 52) 2047 in
  let m := Z.land b (2 ^ 52 - 1) in
  SF2Prim
    (if E =? 0 then
       if m =? 0 then S754_zero s else S754_finite s (Z.to_pos m) (-1074)
     else if E =? 2047 then
       if m =? 0 then S754_infinity s else S754_nan
     else S754_finite s (Z.to_pos (m + 2 ^ 52)) (E - 1075)).

(** *** [class _Payload(ctypes.Union)]

    The three fields overlay the same eight bytes, kept here as one
    unsigned 64-bit word; each field is a reading of that word. *)
Record _Payload := { payload_bits : Z }.

Definition ull_value (p : _Payload) : Z := payload_bits p.
Definition ll_value (p : _Payload) : Z := c_int 64 (payload_bits p).
Definition d_value (p : _Payload) : float := double_of_bits (payload_bits p).

Definition set_ll_value (v : Z) : _Payload := {| payload_bits := c_uint 64 v |}.
Definition set_d_value (f : float) : _Payload := {| payload_bits := bits_of_double f |}.

(** *** [class _Message(ctypes.Union)]

    The union holds one pointer.  It is null, or refers to a
    NUL-terminated narrow buffer, or to a NUL-terminated wide buffer
    (whose text is kept as a [string]). *)
Inductive _Message :=
  | NULL
  | narrow (s : string)
  | wide (t : string).

(** A C string ends at its first NUL. *)
Fixpoint c_str (s : string) : string :=
  match s with
  | EmptyString => EmptyString
  | String c r => if Ascii.eqb c Ascii.zero then EmptyString else String c (c_str r)
  end.

(** *** [class _EventAttributes_v1(ctypes.Structure)] *)
Record _EventAttributes_v1 := {
  version : Z;          (* c_uint16 *)
  size : Z;             (* c_uint16 *)
  category : Z;         (* c_uint32 *)
  _color_type : Z;      (* c_int32 *)
  _color : Z;           (* c_uint32 *)
  _payload_type : Z;    (* c_int32 *)
  _reserved0 : Z;       (* c_int32 *)
  _payload : _Payload;
  _message_type : Z;    (* c_int32 *)
  _message : _Message
}.

(** [ctypes.sizeof(_EventAttributes_v1)] on an LP64 platform:
    2+2+4+4+4+4+4 bytes, the 8-byte union, a 4-byte kind, 4 bytes of
    padding and an 8-byte pointer. *)
Definition sizeof_EventAttributes_v1 : Z := 48.

(** [__init__]: zero the record, then stamp version and size. *)
Definition __init__ : _EventAttributes_v1 :=
  {| version := c_uint 16 _NVTX_VERSION;
     size := c_uint 16 sizeof_EventAttributes_v1;
     category := 0;
     _color_type := 0;
     _color := 0;
     _payload_type := 0;
     _reserved0 := 0;
     _payload := {| payload_bits := 0 |};
     _message_type := 0;
     _message := NULL |}.

Definition set_category (v : Z) (ea : _EventAttributes_v1) :=
  {| version := version ea; size := size ea; category := c_uint 32 v;
     _color_type := _color_type ea; _color := _color ea;
     _payload_type := _payload_type ea; _reserved0 := _reserved0 ea;
     _payload := _payload ea; _message_type := _message_type ea;
     _message := _message ea |}.

Definition set_color_type (v : Z) (ea : _EventAttributes_v1) :=
  {| version := version ea; size := size ea; category := category ea;
     _color_type := c_int 32 v; _color := _color ea;
     _payload_type := _payload_type ea; _reserved0 := _reserved0 ea;
     _payload := _payload ea; _message_type := _message_type ea;
     _message := _message ea |}.

Definition set_color (v : Z) (ea : _EventAttributes_v1) :=
  {| version := version ea; size := size ea; category := category ea;
     _color_type := _color_type ea; _color := c_uint 32 v;
     _payload_type := _payload_type ea; _reserved0 := _reserved0 ea;
     _payload := _payload ea; _message_type := _message_type ea;
     _message := _message ea |}.

Definition set_payload_type (v : Z) (ea : _EventAttributes_v1) :=
  {| version := version ea; size := size ea; category := category ea;
     _color_type := _color_type ea; _color := _color ea;
     _payload_type := c_int 32 v; _reserved0 := _reserved0 ea;
     _payload := _payload ea; _message_type := _message_type ea;
     _message := _message ea |}.

Definition set_payload (p : _Payload) (ea : _EventAttributes_v1) :=
  {| version := version ea; size := size ea; category := category ea;
     _color_type := _color_type ea; _color := _color ea;
     _payload_type := _payload_type ea; _reserved0 := _reserved0 ea;
     _payload := p; _message_type := _message_type ea;
     _message := _message ea |}.

Definition set_message_type (v : Z) (ea : _EventAttributes_v1) :=
  {| version := version ea; size := size ea; category := category ea;
     _color_type := _color_type ea; _color := _color ea;
     _payload_type := _payload_type ea; _reserved0 := _reserved0 ea;
     _payload := _payload ea; _message_type := c_int 32 v;
     _message := _message ea |}.

Definition set_message (m : _Message) (ea : _EventAttributes_v1) :=
  {| version := version ea; size := size ea; category := category ea;
     _color_type := _color_type ea; _color := _color ea;
     _payload_type := _payload_type ea; _reserved0 := _reserved0 ea;
     _payload := _payload ea; _message_type := _message_type ea;
     _message := m |}.

(** [isinstance(payload, numbers.Integral)]: [int] and [bool]. *)
Definition as_Integral (v : pyval) : option Z :=
  match v with
  | VInt z => Some z
  | VBool b => Some (if b then 1 else 0)
  | _ => None
  end.

(** [isinstance(payload, numbers.Real)] for a value that is not
    Integral: [float]. *)
Definition as_Real (v : pyval) : option float :=
  match v with
  | VFloat f => Some f
  | _ => None
  end.

(** [_create_event(message, color, payload, category)].  [message] is a
    narrow string or [None]; [color] and [category] are integers or
    [None]; [payload] is any value ([VNone] for [None]). *)
Definition _create_event
    (message : option string) (color : option Z) (payload : pyval)
    (category : option Z) : _EventAttributes_v1 :=
  let ea := __init__ in
  let ea :=
    match category with
    | Some c => set_category c ea
    | None => ea
    end in
  let ea :=
    match color with
    | Some c => set_color c (set_color_type _NVTX_COLOR_ARGB ea)
    | None => ea
    end in
  let ea :=
    match payload with
    | VNone => ea
    | _ =>
        match as_Integral payload with
        | Some z =>
            set_payload (set_ll_value z)
              (set_payload_type _NVTX_PAYLOAD_TYPE_INT64 ea)
        | None =>
            match as_Real payload with
            | Some f =>
                set_payload (set_d_value f)
                  (set_payload_type _NVTX_PAYLOAD_TYPE_DOUBLE ea)
            | None => ea
            end
        end
    end in
  let ea :=
    match message with
    | Some m => set_message (narrow m) (set_message_type _NVTX_MESSAGE_TYPE_ASCII ea)
    | None => ea
    end in
  ea.

(** [hex(n)] as Python 3 prints it. *)
Definition hex (n : Z) : string :=
  if n <? 0 then "-0x" +:+ NilZero.string_of_uint (N.to_hex_uint (Z.to_N (- n)))
  else "0x" +:+ NilZero.string_of_uint (N.to_hex_uint (Z.to_N n)).

Section Accessors.

(** Reading the union's pointer through the field of the other
    character width reinterprets memory the record does not describe.

    The [c_wchar_p] read of a narrow buffer takes the bytes, several to a
    unit, as wide characters, and goes on past the buffer's single
    terminating byte until it meets a wide terminator: what it finds
    depends on the memory of the process beyond the buffer, not on the
    buffer alone, and it raises [ValueError] when a unit it meets is
    not a code point.  So this read is a function of the [memory] and
    the buffer, and its result is an [outcome].

    The [c_char_p] read of a wide buffer stops at the first zero byte,
    which the buffer itself holds; it returns bytes and cannot raise. *)
Variable memory : Type.
Variable wide_read_of_narrow : memory → string → outcome pyval.
Variable narrow_read_of_wide : string → pyval.

(** [_message.ascii] ([c_char_p]) and [_message.unicode] ([c_wchar_p]). *)
Definition ascii (m : _Message) : pyval :=
  match m with
  | NULL => VNone
  | narrow s => VBytes (c_str s)
  | wide t => narrow_read_of_wide t
  end.

Definition unicode (mem : memory) (m : _Message) : outcome pyval :=
  match m with
  | NULL => Ok VNone
  | narrow s => wide_read_of_narrow mem s
  | wide t => Ok (VStr (c_str t))
  end.

(** The three properties of the record. *)
Definition payload (self : _EventAttributes_v1) : outcome pyval :=
  if _payload_type self =? _NVTX_PAYLOAD_UNKNOWN then Ok VNone
  else if _payload_type self =? _NVTX_PAYLOAD_TYPE_UNSIGNED_INT64 then
    Ok (VInt (ull_value (_payload self)))
  else if _payload_type self =? _NVTX_PAYLOAD_TYPE_INT64 then
    Ok (VInt (ll_value (_payload self)))
  else if _payload_type self =? _NVTX_PAYLOAD_TYPE_DOUBLE then
    Ok (VFloat (d_value (_payload self)))
  else Raise (AttributeError "Payload of unknown type").

Definition color (self : _EventAttributes_v1) : outcome pyval :=
  if _color_type self =? _NVTX_COLOR_UNKNOWN then Ok VNone
  else if _color_type self =? _NVTX_COLOR_ARGB then Ok (VStr (hex (_color self)))
  else Raise (AttributeError "Color of unknown type").

Definition message (mem : memory) (self : _EventAttributes_v1) : outcome pyval :=
  if _message_type self =? _NVTX_MESSAGE_UNKNOWN then Ok VNone
  else if _message_type self =? _NVTX_MESSAGE_TYPE_ASCII then
    Ok (ascii (_message self))
  else if _message_type self =? _NVTX_MESSAGE_TYPE_UNICODE then
    unicode mem (_message self)
  else Raise (AttributeError "Message of unknown type").

End Accessors.

Arguments unicode {memory} wide_read_of_narrow mem m.
Arguments message {memory} wide_read_of_narrow narrow_read_of_wide mem self.

End Codec.

(** ** The world the module runs in *)

(** The calls that reach the native library. *)
Inductive native_call :=
  | nvtxMarkA (message : option string)
  | nvtxMarkEx (evnt : Codec._EventAttributes_v1)
  | nvtxRangePushA (message : option string)
  | nvtxRangePushEx (evnt : Codec._EventAttributes_v1)
  | nvtxRangePop.

(** Object identities. *)
Abbreviation loc := nat (only parsing).

(** A [dict] keyed by narrow strings, in insertion order, holding
    references to lists. *)
Abbreviation pydict := (list (string * loc)) (only parsing).

Record world := {
  w_lists : gmap loc (list pyval);   (* the list objects *)
  w_dicts : gmap loc pydict;         (* the dict objects *)
  w_next : loc;                      (* identity of the next object created *)
  w_native : list native_call;       (* calls received by the library, oldest first *)
  w_clock : nat → float;             (* successive readings of [time()] *)
  w_ticks : nat                      (* readings taken so far *)
}.

Definition M (A : Type) : Type := world → outcome A * world.

Definition M_ret {A} (a : A) : M A := λ w, (Ok a, w).

Definition M_bind {A B} (f : A → M B) (m : M A) : M B :=
  λ w, match m w with
       | (Ok a, w') => f a w'
       | (Raise e, w') => (Raise e, w')
       end.

#[global] Instance M_mret : MRet M := @M_ret.
#[global] Instance M_mbind : MBind M := @M_bind.

Definition raise {A} (e : exn) : M A := λ w, (Raise e, w).

Definition lift {A} (o : outcome A) : M A := λ w, (o, w).

(** [time()] *)
Definition time : M float :=
  λ w, (Ok (w_clock w (w_ticks w)),
        {| w_lists := w_lists w; w_dicts := w_dicts w; w_next := w_next w;
           w_native := w_native w; w_clock := w_clock w;
           w_ticks := S (w_ticks w) |}).

(** A call through the bound library. *)
Definition native (c : native_call) : M unit :=
  λ w, (Ok tt,
        {| w_lists := w_lists w; w_dicts := w_dicts w; w_next := w_next w;
           w_native := w_native w ++ [c]; w_clock := w_clock w;
           w_ticks := w_ticks w |}).

(** *** Objects *)

Definition new_list (xs : list pyval) : M loc :=
  λ w, (Ok (w_next w),
        {| w_lists := <[w_next w := xs]> (w_lists w); w_dicts := w_dicts w;
           w_next := S (w_next w); w_native := w_native w;
           w_clock := w_clock w; w_ticks := w_ticks w |}).

Definition new_dict (d : pydict) : M loc :=
  λ w, (Ok (w_next w),
        {| w_lists := w_lists w; w_dicts := <[w_next w := d]> (w_dicts w);
           w_next := S (w_next w); w_native := w_native w;
           w_clock := w_clock w; w_ticks := w_ticks w |}).

(** A reference always refers to a live object; the defaults below are
    never read in a world built by the operations of this file. *)
Definition read_list (l : loc) : M (list pyval) :=
  λ w, (Ok (default [] (w_lists w !! l)), w).

Definition read_dict (l : loc) : M pydict :=
  λ w, (Ok (default [] (w_dicts w !! l)), w).

Definition write_list (l : loc) (xs : list pyval) : M unit :=
  λ w, (Ok tt,
        {| w_lists := <[l := xs]> (w_lists w); w_dicts := w_dicts w;
           w_next := w_next w; w_native := w_native w;
           w_clock := w_clock w; w_ticks := w_ticks w |}).

Definition write_dict (l : loc) (d : pydict) : M unit :=
  λ w, (Ok tt,
        {| w_lists := w_lists w; w_dicts := <[l := d]> (w_dicts w);
           w_next := w_next w; w_native := w_native w;
           w_clock := w_clock w; w_ticks := w_ticks w |}).

(** [d.get(k)], [d[k] = v] and [del d[k]] on the entries of a dict. *)
Fixpoint dict_get (k : string) (d : pydict) : option loc :=
  match d with
  | [] => None
  | (k', v) :: r => if String.eqb k k' then Some v else dict_get k r
  end.

Fixpoint dict_set (k : string) (v : loc) (d : pydict) : pydict :=
  match d with
  | [] => [(k, v)]
  | (k', v') :: r =>
      if String.eqb k k' then (k', v) :: r else (k', v') :: dict_set k v r
  end.

Fixpoint dict_del (k : string) (d : pydict) : pydict :=
  match d with
  | [] => []
  | (k', v') :: r => if String.eqb k k' then r else (k', v') :: dict_del k r
  end.

(** *** Arithmetic of [+=] *)

(** [float(n)] for an [int]: rounded to nearest even, an error when out
    of range. *)
Definition float_of_int (z : Z) : outcome float :=
  let f := SF2Prim (binary_normalize 53 1024 z 0 false) in
  if PrimFloat.is_infinity f
  then Raise (OverflowError "int too large to convert to float")
  else Ok f.

(** [a + b] *)
Definition py_add (a b : pyval) : outcome pyval :=
  match Codec.as_Integral a, Codec.as_Integral b with
  | Some x, Some y => Ok (VInt (x + y))
  | Some x, None =>
      match b with
      | VFloat g =>
          match float_of_int x with
          | Ok f => Ok (VFloat (PrimFloat.add f g))
          | Raise e => Raise e
          end
      | _ => Raise (TypeError "unsupported operand type(s) for +")
      end
  | None, Some y =>
      match a with
      | VFloat f =>
          match float_of_int y with
          | Ok g => Ok (VFloat (PrimFloat.add f g))
          | Raise e => Raise e
          end
      | _ => Raise (TypeError "unsupported operand type(s) for +")
      end
  | None, None =>
      match a, b with
      | VFloat f, VFloat g => Ok (VFloat (PrimFloat.add f g))
      | VBytes s, VBytes t => Ok (VBytes (s +:+ t))
      | VStr s, VStr t => Ok (VStr (s +:+ t))
      | _, _ => Raise (TypeError "unsupported operand type(s) for +")
      end
  end.

(** [xs[i] += v] on the list object [l]. *)
Definition list_iadd (l : loc) (i : nat) (v : pyval) : M unit :=
  xs ← read_list l;
  match xs !! i with
  | None => raise (IndexError "list index out of range")
  | Some x =>
      y ← lift (py_add x v);
      (* a list object is re-read: [py_add] runs no user code *)
      write_list l (<[i := y]> xs)
  end.

(** ** Library Binder: the module-level [try] *)

Inductive binding := Bound | Unavailable.

Module Binder.

Section Binder.

Variable os_path_join : string → string → string.

(** [ctypes.CDLL] / [ctypes.WinDLL] on a path: an error, or a library
    handle, given here by the symbols it exports. *)
Variable loader : option string → outcome (list string).

Definition _load_lib (environ : gmap string string) (platform : string)
    : outcome (list string) :=
  match loader (Locator._get_cuda_nvtx_path os_path_join environ platform) with
  | Ok lib => Ok lib
  | Raise e => Raise e       (* [except OSError as e: raise] *)
  end.

(** [_lib.name]: attribute access resolves the symbol. *)
Definition getattr (lib : list string) (name : string) : outcome unit :=
  if bool_decide (name ∈ lib) then Ok tt
  else Raise (AttributeError ("undefined symbol: " +:+ name)).

Fixpoint getattrs (lib : list string) (names : list string) : outcome unit :=
  match names with
  | [] => Ok tt
  | n :: r =>
      match getattr lib n with
      | Ok _ => getattrs lib r
      | Raise e => Raise e
      end
  end.

(** The body of the [try]: load, then touch the five entry points in
    the order the module does. *)
Definition try_body (environ : gmap string string) (platform : string)
    : outcome unit :=
  match _load_lib environ platform with
  | Raise e => Raise e
  | Ok _lib =>
      getattrs _lib
        ["nvtxMarkA"; "nvtxMarkEx"; "nvtxRangePushEx"; "nvtxRangePushA";
         "nvtxRangePop"]%string
  end.

(** [try: ... except Exception: ...] selects the definitions once. *)
Definition bind (environ : gmap string string) (platform : string) : binding :=
  match try_body environ platform with
  | Ok _ => Bound
  | Raise _ => Unavailable
  end.

End Binder.

End Binder.

(** ** Instrumentation Facade *)

(** [all(x is None for x in (color, payload, category))] *)
Definition all_None (color : option Z) (payload : pyval) (category : option Z) : bool :=
  match color, payload, category with
  | None, VNone, None => true
  | _, _, _ => false
  end.

Definition profile_mark (b : binding)
    (message : option string) (color : option Z) (payload : pyval)
    (category : option Z) : M unit :=
  match b with
  | Bound =>
      if all_None color payload category then
        native (nvtxMarkA message)
      else
        let evnt := Codec._create_event message color payload category in
        native (nvtxMarkEx evnt)
  | Unavailable => mret tt
  end.

Definition profile_range_push (b : binding)
    (message : option string) (color : option Z) (payload : pyval)
    (category : option Z) : M unit :=
  match b with
  | Bound =>
      if all_None color payload category then
        native (nvtxRangePushA message)
      else
        let evnt := Codec._create_event message color payload category in
        native (nvtxRangePushEx evnt)
  | Unavailable => mret tt
  end.

(** The integer [nvtxRangePop] returns is the library's own and is used
    nowhere in the module. *)
Definition profile_range_pop (b : binding) : M unit :=
  match b with
  | Bound => native nvtxRangePop
  | Unavailable => mret tt
  end.

(** ** Generator-based context managers *)

(** A generator function with a single [yield] that stands outside any
    [try]: the code before the yield, which leaves the frame's locals,
    and the code after it. *)
Record generator (L : Type) := {
  before_yield : M L;
  after_yield : L → M unit
}.
Arguments before_yield {L} g.
Arguments after_yield {L} g frame.

(** [with contextlib.contextmanager(g)(...): body].

    [__enter__] runs the generator to its yield.  When the body ends
    normally, [__exit__] resumes the generator, which runs to its end.
    When the body raises, [__exit__] throws the exception into the
    generator at the yield; no handler encloses the yield, so the
    generator ends with that exception without running the code after
    it, [__exit__] returns [False], and the exception propagates. *)
Definition with_ {L A} (g : generator L) (body : M A) : M A :=
  λ w, match before_yield g w with
       | (Raise e, w1) => (Raise e, w1)
       | (Ok frame, w1) =>
           match body w1 with
           | (Ok a, w2) =>
               match after_yield g frame w2 with
               | (Ok _, w3) => (Ok a, w3)
               | (Raise e, w3) => (Raise e, w3)
               end
           | (Raise e, w2) => (Raise e, w2)
           end
       end.

(** [_stats = {}]: the module global names the first object created. *)
Definition _stats : loc := 0%nat.

Definition module_world (clock : nat → float) : world :=
  {| w_lists := ∅; w_dicts := {[ _stats := [] ]}; w_next := 1%nat;
     w_native := []; w_clock := clock; w_ticks := 0%nat |}.

Definition profile_range_nvtx_only (b : binding)
    (name : string) (color : option Z) (payload : pyval)
    (category : option Z) : generator unit :=
  {| before_yield := profile_range_push b (Some name) color payload None;
     after_yield _ := profile_range_pop b |}.

(** The truth value of [_stats.get(name)]: [None] is false, a list is
    true when it is not empty. *)
Definition truthy (stat : option loc) : M bool :=
  match stat with
  | None => mret false
  | Some s => xs ← read_list s; mret (negb (bool_decide (xs = [])))
  end.

Definition profile_range (b : binding)
    (name : string) (color : option Z) (payload : pyval)
    (category : option Z) : generator float :=
  {| before_yield :=
       profile_range_push b (Some name) color payload None;;
       t ← time;
       mret t;
     after_yield t :=
       now ← time;
       let t := PrimFloat.sub now t in
       d ← read_dict _stats;
       let stat := dict_get name d in
       truth ← truthy stat;
       match stat, truth with
       | Some stat, true =>
           list_iadd stat 0 (VInt 1);;
           list_iadd stat 1 (VFloat t)
       | _, _ =>
           fresh ← new_list [VInt 1; VFloat t];
           d ← read_dict _stats;
           write_dict _stats (dict_set name fresh d)
       end;;
       profile_range_pop b |}.

(** The wrapper [profiled(tag, category, color, payload)(func)] applied
    to arguments; [func] stands for the wrapped call on them. *)
Definition profiled (b : binding)
    (tag : string) (category : option Z) (color : option Z) (payload : pyval)
    {A} (func : M A) : M A :=
  with_ (profile_range b tag color payload category) func.

(** ** Statistics snapshot: [getstats] *)

Fixpoint memo_get (x : loc) (memo : list (loc * loc)) : option loc :=
  match memo with
  | [] => None
  | (x', y) :: r => if Nat.eqb x x' then Some y else memo_get x r
  end.

(** [copy.deepcopy] of a list of numbers and strings: a new list with
    the same elements (they are immutable and copied as themselves),
    unless the list was already copied in this pass. *)
Definition deepcopy_list (x : loc) (memo : list (loc * loc))
    : M (loc * list (loc * loc)) :=
  match memo_get x memo with
  | Some y => mret (y, memo)
  | None =>
      xs ← read_list x;
      y ← new_list xs;
      mret (y, (x, y) :: memo)
  end.

(** The loop of [copy._deepcopy_dict]: [y[key] = deepcopy(value, memo)]. *)
Fixpoint deepcopy_items (y : loc) (items : pydict) (memo : list (loc * loc))
    : M unit :=
  match items with
  | [] => mret tt
  | (key, value) :: r =>
      '(value', memo') ← deepcopy_list value memo;
      d ← read_dict y;
      write_dict y (dict_set key value' d);;
      deepcopy_items y r memo'
  end.

Definition deepcopy_dict (x : loc) : M loc :=
  items ← read_dict x;
  y ← new_dict [];
  deepcopy_items y items [];;
  mret y.

Definition getstats : M loc := deepcopy_dict _stats.

(** What a mapping of lists holds, read through its references. *)
Definition contents (w : world) (x : loc) : list (string * list pyval) :=
  (λ kv, (kv.1, default [] (w_lists w !! kv.2))) <$> default [] (w_dicts w !! x).

(** *** What a caller can do to a mapping it was handed *)

Inductive mutation :=
  | SetItem (k : string) (xs : list pyval)            (* r[k] = [x, ...] *)
  | SetAlias (k k' : string)                          (* r[k] = r[k'] *)
  | DelItem (k : string)                              (* del r[k] *)
  | Clear                                             (* r.clear() *)
  | ListSetItem (k : string) (i : nat) (v : pyval)    (* r[k][i] = v *)
  | ListIAdd (k : string) (i : nat) (v : pyval)       (* r[k][i] += v *)
  | ListAppend (k : string) (v : pyval)               (* r[k].append(v) *)
  | ListClear (k : string).                           (* del r[k][:] *)

(** [r[k]], a [KeyError] when missing. *)
Definition getitem (r : loc) (k : string) : M loc :=
  d ← read_dict r;
  match dict_get k d with
  | Some l => mret l
  | None => raise (KeyError k)
  end.

Definition mutate (r : loc) (m : mutation) : M unit :=
  match m with
  | SetItem k xs =>
      l ← new_list xs; d ← read_dict r; write_dict r (dict_set k l d)
  | SetAlias k k' =>
      l ← getitem r k'; d ← read_dict r; write_dict r (dict_set k l d)
  | DelItem k =>
      _ ← getitem r k; d ← read_dict r; write_dict r (dict_del k d)
  | Clear => write_dict r []
  | ListSetItem k i v =>
      l ← getitem r k; xs ← read_list l;
      if bool_decide (i < length xs)%nat then write_list l (<[i := v]> xs)
      else raise (IndexError "list assignment index out of range")
  | ListIAdd k i v => l ← getitem r k; list_iadd l i v
  | ListAppend k v => l ← getitem r k; xs ← read_list l; write_list l (xs ++ [v])
  | ListClear k => l ← getitem r k; write_list l []
  end.

(** A caller's sequence of mutations; one that raises leaves the store
    as the raise found it, and the caller goes on. *)
Definition mutations (r : loc) (ms : list mutation) (w : world) : world :=
  foldl (λ w m, (mutate r m w).2) w ms.

(** ** Counting range calls in the native log *)

Definition is_push (c : native_call) : bool :=
  match c with
  | nvtxRangePushA _ | nvtxRangePushEx _ => true
  | _ => false
  end.

Definition is_pop (c : native_call) : bool :=
  match c with
  | nvtxRangePop => true
  | _ => false
  end.

Definition count_push (log : list native_call) : nat := length (List.filter is_push log).
Definition count_pop (log : list native_call) : nat := length (List.filter is_pop log).

(** ** Observing the statistics table *)

(** The list held for [name] in [_stats], when there is one. *)
Definition stat_of (w : world) (name : string) : option (list pyval) :=
  match dict_get name (default [] (w_dicts w !! _stats)) with
  | Some l => w_lists w !! l
  | None => None
  end.

(** The entry for [name] is absent, empty, or a [[count, total]] pair
    as [profile_range] creates it. *)
Definition stat_entry_ok (w : world) (name : string) : Prop :=
  match stat_of w name with
  | None => True
  | Some xs => xs = [] ∨ ∃ count total, xs = [VInt count; VFloat total]
  end.

(** [d1 + d2 + ... + dn] as Python evaluates it, left to right. *)
Definition float_sum (ds : list float) : float :=
  match ds with
  | [] => 0%float
  | d :: r => foldl PrimFloat.add d r
  end.

(** A run of [with profile_range(name, ...): body] statements, one after
    the other, each with its own optional arguments and block. *)
Abbreviation invocation := (option Z * pyval * option Z * M unit)%type (only parsing).

Fixpoint run_ranges (b : binding) (name : string) (invs : list invocation) : M unit :=
  match invs with
  | [] => mret tt
  | (color, payload, category, body) :: r =>
      with_ (profile_range b name color payload category) body;;
      run_ranges b name r
  end.

(** The duration each statement of the run measures: the clock reading
    taken after its block minus the one taken before it. *)
Fixpoint elapsed_list (b : binding) (name : string) (invs : list invocation)
    (w : world) : list float :=
  match invs with
  | [] => []
  | (color, payload, category, body) :: r =>
      let g := profile_range b name color payload category in
      let '(t0, w1) := before_yield g w in
      let w2 := (body w1).2 in
      match t0 with
      | Ok t0 =>
          PrimFloat.sub (w_clock w2 (w_ticks w2)) t0
            :: elapsed_list b name r (with_ g body w).2
      | Raise _ => []
      end
  end.

(** A block that always completes and leaves the entry for [name] as it
    found it. *)
Definition leaves_entry (name : string) (body : M unit) : Prop :=
  ∀ w, ∃ w', body w = (Ok tt, w') ∧ stat_of w' name = stat_of w name.

(** Along a run started in [w]: each block, in the world in which it
    is started, completes normally and leaves the entry for [name] as
    it found it.  Nothing is asked of the blocks in other worlds, so a
    block may itself hold ranges on other names. *)
Fixpoint blocks_leave_entry (b : binding) (name : string) (invs : list invocation)
    (w : world) : Prop :=
  match invs with
  | [] => True
  | (color, payload, category, body) :: r =>
      let g := profile_range b name color payload category in
      let w1 := (before_yield g w).2 in
      (∃ w2, body w1 = (Ok tt, w2) ∧ stat_of w2 name = stat_of w1 name)
      ∧ blocks_leave_entry b name r (with_ g body w).2
  end.

(** The table as the module keeps it: the dict exists before the next
    object identity, its keys are distinct, and the lists it refers to
    were created before the next object identity. *)
Definition stats_wf (w : world) : Prop :=
  (_stats < w_next w)%nat
  ∧ NoDup (default [] (w_dicts w !! _stats)).*1
  ∧ Forall (λ kv, (kv.2 < w_next w)%nat) (default [] (w_dicts w !! _stats)).

(** Two facts about a world [w] reached from [w0] by a caller that was
    handed the mapping [r], for a threshold identity [n0]: every object
    older than [n0] is as it was in [w0]; and [r], what [r] refers to,
    and whatever is created next are not older than [n0]. *)
Definition frame_below (n0 : loc) (w0 w : world) : Prop :=
  (∀ x, (x < n0)%nat → w_lists w !! x = w_lists w0 !! x)
  ∧ (∀ x, (x < n0)%nat → w_dicts w !! x = w_dicts w0 !! x).

Definition held_above (n0 r : loc) (w : world) : Prop :=
  (n0 ≤ r)%nat ∧ (n0 ≤ w_next w)%nat
  ∧ Forall (λ kv, (n0 ≤ kv.2)%nat) (default [] (w_dicts w !! r)).

(** Every entry of the table refers to a [[count, total]] pair. *)
Definition stats_shaped (w : world) : Prop :=
  ∀ name l, dict_get name (default [] (w_dicts w !! _stats)) = Some l →
    ∃ count total, w_lists w !! l = Some [VInt count; VFloat total].

Definition stats_inv (w : world) : Prop := stats_wf w ∧ stats_shaped w.

(** A clock and a run used in the examples. *)
Definition sample_clock (n : nat) : float :=
  nth n [0; 1; 4; 9; 16; 25; 36; 49; 64]%float 0%float.

Definition sample_run : list invocation :=
  [(None, VNone, None, time;; mret tt);
   (Some 0xff00ff00, VNone, Some 3, time;; mret tt);
   (None, VInt 5, None, time;; mret tt)].

(** A longer clock, and a run on ["x"] whose second block holds a range
    on ["y"]. *)
Definition sample_clock_long (n : nat) : float :=
  nth n [0; 1; 4; 9; 16; 25; 36; 49; 64; 81; 100; 121]%float 0%float.

Definition sample_run_around : list invocation :=
  [(None, VNone, None, time;; mret tt);
   (Some 0xff00ff00, VNone, Some 3,
    with_ (profile_range Bound "y" None VNone None) (time;; mret tt));
   (None, VInt 5, None, time;; mret tt)].

(** The world after the sample run, and what a caller then does to the
    snapshot it is handed. *)
Definition sample_world : world :=
  (run_ranges Bound "x" sample_run (module_world sample_clock)).2.

Definition sample_mutations : list mutation :=
  [ListIAdd "x" 0 (VInt 7); ListSetItem "x" 1 VNone; SetItem "y" [VInt 0];
   SetAlias "z" "x"; ListAppend "z" (VStr "more"); DelItem "x"; ListClear "z";
   Clear].

(** ** The rest of the module *)

(** *** [class _Colors] and [colors = _Colors()] *)

Module colors.

Definition red : Z := 0xffff0000.
Definition green : Z := 0xff00ff00.
Definition blue : Z := 0xff0000ff.
Definition yellow : Z := 0xffffff00.
Definition magenta : Z := 0xffff00ff.
Definition cyan : Z := 0xff00ffff.
Definition white : Z := 0xffffffff.
Definition black : Z := 0xff000000.

(** The attributes of the class. *)
Definition named : list (string * Z) :=
  [("red", red); ("green", green); ("blue", blue); ("yellow", yellow);
   ("magenta", magenta); ("cyan", cyan); ("white", white); ("black", black)]%string.

End colors.

(** *** [_EventAttributes_v1.__str__] *)

Module Printing.

(** The names [__str__] looks up, in its order. *)
Inductive attr :=
  | attr_version
  | attr_size
  | attr_category
  | attr_message
  | attr_color
  | attr_payload.

Definition attrs : list attr :=
  [attr_version; attr_size; attr_category; attr_message; attr_color; attr_payload].

Definition attr_name (x : attr) : string :=
  match x with
  | attr_version => "version"
  | attr_size => "size"
  | attr_category => "category"
  | attr_message => "message"
  | attr_color => "color"
  | attr_payload => "payload"
  end.

(** [sep.join(items)] *)
Fixpoint join (sep : string) (items : list string) : string :=
  match items with
  | [] => ""
  | [x] => x
  | x :: r => x +:+ sep +:+ join sep r
  end.

(** The separator, a newline and a tab. *)
Definition newline_tab : string :=
  String (Ascii.ascii_of_nat 10) (String (Ascii.ascii_of_nat 9) EmptyString).

Section Printing.

Variable memory : Type.
Variable wide_read_of_narrow : memory → string → outcome pyval.
Variable narrow_read_of_wide : string → pyval.
Variable mem : memory.

(** The text [str.format] writes for a value under the field [{1}]. *)
Variable format_value : pyval → string.

(** [getattr(self, x)] for the six names: three plain fields and the
    three properties. *)
Definition getattr (self : Codec._EventAttributes_v1) (x : attr) : outcome pyval :=
  match x with
  | attr_version => Ok (VInt (Codec.version self))
  | attr_size => Ok (VInt (Codec.size self))
  | attr_category => Ok (VInt (Codec.category self))
  | attr_message => Codec.message wide_read_of_narrow narrow_read_of_wide mem self
  | attr_color => Codec.color self
  | attr_payload => Codec.payload self
  end.

(** The generator handed to [join]: its items are produced in order, and
    the first [getattr] that raises ends it. *)
Fixpoint items (self : Codec._EventAttributes_v1) (xs : list attr)
    : outcome (list string) :=
  match xs with
  | [] => Ok []
  | x :: r =>
      match getattr self x with
      | Raise e => Raise e
      | Ok v =>
          match items self r with
          | Raise e => Raise e
          | Ok l => Ok ((attr_name x +:+ ": " +:+ format_value v) :: l)
          end
      end
  end.

Definition __str__ (self : Codec._EventAttributes_v1) : outcome string :=
  match items self attrs with
  | Raise e => Raise e
  | Ok l => Ok ("EventAttributes_v1:" +:+ newline_tab +:+ join newline_tab l)
  end.

End Printing.

Arguments getattr {memory} wide_read_of_narrow narrow_read_of_wide mem self x.
Arguments items {memory} wide_read_of_narrow narrow_read_of_wide mem format_value self xs.
Arguments __str__ {memory} wide_read_of_narrow narrow_read_of_wide mem format_value self.

End Printing.

(** The cross-width reads used in the examples.  The wide read of the
    narrow buffer ["hell"] takes its four bytes as one wide character,
    [U+6c6c6568], which is no code point: the read raises.  The narrow
    read of wide text stops at the first zero byte, which for text
    below [U+0100] in little-endian units follows the first byte. *)
Definition sample_memory : unit := tt.

Definition sample_wide_read (mem : unit) (s : string) : outcome pyval :=
  Raise (ValueError "character U+6c6c6568 is not in range [U+0000; U+10ffff]").

Definition sample_narrow_read (t : string) : pyval :=
  VBytes (String.substring 0 1 t).

(** *** Ranges inside ranges *)

Abbreviation range_args := (string * option Z * pyval * option Z)%type (only parsing).

(** [with profile_range(n1, ...): with profile_range(n2, ...): ... body],
    outermost first. *)
Fixpoint nested_ranges (b : binding) (ranges : list range_args) {A} (body : M A)
    : M A :=
  match ranges with
  | [] => body
  | (name, color, payload, category) :: r =>
      with_ (profile_range b name color payload category) (nested_ranges b r body)
  end.

(** The world in which the innermost block starts. *)
Fixpoint enter_all (b : binding) (ranges : list range_args) (w : world) : world :=
  match ranges with
  | [] => w
  | (name, color, payload, category) :: r =>
      enter_all b r (before_yield (profile_range b name color payload category) w).2
  end.

(** No two names of the table share a list. *)
Definition stats_distinct (w : world) : Prop :=
  NoDup (default [] (w_dicts w !! _stats)).*2.

(** A block that completes and writes to no object: it may read the
    clock and call the library. *)
Definition store_neutral {A} (body : M A) : Prop :=
  ∀ w, ∃ a w', body w = (Ok a, w')
               ∧ w_lists w' = w_lists w ∧ w_dicts w' = w_dicts w
               ∧ w_next w' = w_next w.

(** Two worlds that differ at most in the native log. *)
Definition same_store (w w' : world) : Prop :=
  w_lists w = w_lists w' ∧ w_dicts w = w_dicts w' ∧ w_next w = w_next w'
  ∧ w_clock w = w_clock w' ∧ w_ticks w = w_ticks w'.

(** A block whose result and writes do not depend on the native log. *)
Definition log_blind {A} (body : M A) : Prop :=
  ∀ w w', same_store w w' →
    (body w).1 = (body w').1 ∧ same_store (body w).2 (body w').2.

(** A run of [with profile_range(name, ...): body] statements over any
    names, one after the other. *)
Fixpoint run_named (b : binding)
    (invs : list (string * option Z * pyval * option Z * M unit)) : M unit :=
  match invs with
  | [] => mret tt
  | (name, color, payload, category, body) :: r =>
      with_ (profile_range b name color payload category) body;;
      run_named b r
  end.

(** The count the table holds for [name], 0 when it has no entry. *)
Definition count_of (w : world) (name : string) : Z :=
  match stat_of w name with
  | Some (VInt count :: _) => count
  | _ => 0
  end.

(** How many statements of a run are for [name]. *)
Definition occurrences (name : string)
    (invs : list (string * option Z * pyval * option Z * M unit)) : nat :=
  length (List.filter (λ inv, String.eqb inv.1.1.1.1 name) invs).

(** A run over two names used in the examples. *)
Definition sample_named_run : list (string * option Z * pyval * option Z * M unit) :=
  [("load"%string, None, VNone, None, time;; mret tt);
   ("step"%string, Some colors.green, VNone, None, mret tt);
   ("load"%string, None, VInt 2, Some 1, time;; mret tt)].

(** * Properties *)

(** ** Library Locator *)

(** C9: with the override set, the locator returns the override joined
    with [libnvToolsExt] and the platform's extension, whatever the
    platform; without it, darwin and linux get their one default
    directory with [.dylib] and [.so]; any other platform gets no
    candidate. *)
Theorem locator_policy
    (os_path_join : string → string → string)
    (environ : gmap string string) (platform : string) :
  let ext :=
    if String.eqb platform "darwin" then ".dylib"%string
    else if String.prefix "linux" platform then ".so"%string
    else if String.eqb platform "win32" then ".dll"%string
    else ""%string in
  let result := Locator._get_cuda_nvtx_path os_path_join environ platform in
  (∀ override, environ !! "NVTXPY_CUDA_TOOLKIT"%string = Some override →
     result = Some (os_path_join override ("libnvToolsExt" +:+ ext)))
  ∧ (environ !! "NVTXPY_CUDA_TOOLKIT"%string = None → platform = "darwin"%string →
     result = Some (os_path_join "/Developer/NVIDIA/CUDA-7.5/lib" "libnvToolsExt.dylib"))
  ∧ (environ !! "NVTXPY_CUDA_TOOLKIT"%string = None →
     String.prefix "linux" platform = true →
     result = Some (os_path_join "/usr/local/cuda-7.0/lib64" "libnvToolsExt.so"))
  ∧ (environ !! "NVTXPY_CUDA_TOOLKIT"%string = None → platform ≠ "darwin"%string →
     String.prefix "linux" platform = false →
     result = None).
Proof.
  cbv zeta. unfold Locator._get_cuda_nvtx_path.
  repeat split.
  - intros override ->. reflexivity.
  - intros -> ->. reflexivity.
  - intros -> Hlinux. rewrite Hlinux.
    destruct (String.eqb platform "darwin") eqn:Hd; [|reflexivity].
    apply String.eqb_eq in Hd. subst platform. discriminate Hlinux.
  - intros -> Hnd Hnl. rewrite Hnl.
    destruct (String.eqb platform "darwin") eqn:Hd; [|reflexivity].
    apply String.eqb_eq in Hd. contradiction.
Qed.

Lemma locator_policy_witness :
  Locator._get_cuda_nvtx_path Locator.posixpath_join
    {[ "NVTXPY_CUDA_TOOLKIT"%string := "/custom/path"%string ]} "linux2"
  = Some "/custom/path/libnvToolsExt.so"%string.
Proof.
  exact (proj1 (locator_policy Locator.posixpath_join
                  {[ "NVTXPY_CUDA_TOOLKIT"%string := "/custom/path"%string ]} "linux2")
           "/custom/path"%string eq_refl).
Defined.

Example locator_darwin_default :
  Locator._get_cuda_nvtx_path Locator.posixpath_join ∅ "darwin"
  = Some "/Developer/NVIDIA/CUDA-7.5/lib/libnvToolsExt.dylib"%string.
Proof. reflexivity. Qed.

Example locator_win32_no_candidate :
  Locator._get_cuda_nvtx_path Locator.posixpath_join ∅ "win32" = None.
Proof. reflexivity. Qed.

Example locator_win32_override (join : string → string → string) :
  Locator._get_cuda_nvtx_path join {[ "NVTXPY_CUDA_TOOLKIT"%string := "C:\cuda"%string ]} "win32"
  = Some (join "C:\cuda" "libnvToolsExt.dll")%string.
Proof. reflexivity. Qed.

(** ** Event Record Codec *)

Lemma c_int_c_uint (w : Z) (v : Z) :
  0 < w → Codec.c_int w (Codec.c_uint w v) = Codec.c_int w v.
Proof.
  intros Hw. unfold Codec.c_int, Codec.c_uint.
  rewrite Zplus_mod_idemp_l. reflexivity.
Qed.

Lemma c_int_in_range (w : Z) (v : Z) :
  0 < w → - 2 ^ (w - 1) ≤ v < 2 ^ (w - 1) → Codec.c_int w v = v.
Proof.
  intros Hw Hv. unfold Codec.c_int.
  assert (2 ^ w = 2 * 2 ^ (w - 1)) as ->.
  { replace w with (Z.succ (w - 1)) at 1 by lia. rewrite Z.pow_succ_r; lia. }
  rewrite Z.mod_small; lia.
Qed.

Lemma create_event_payload_type_cases
    (message : option string) (color : option Z) (payload : pyval)
    (category : option Z) :
  let ea := Codec._create_event message color payload category in
  match payload with
  | VNone | VBytes _ | VStr _ =>
      Codec._payload_type ea = Codec._NVTX_PAYLOAD_UNKNOWN
      ∧ Codec._payload ea = {| Codec.payload_bits := 0 |}
  | VInt z =>
      Codec._payload_type ea = Codec._NVTX_PAYLOAD_TYPE_INT64
      ∧ Codec._payload ea = Codec.set_ll_value z
  | VBool b =>
      Codec._payload_type ea = Codec._NVTX_PAYLOAD_TYPE_INT64
      ∧ Codec._payload ea = Codec.set_ll_value (if b then 1 else 0)
  | VFloat f =>
      Codec._payload_type ea = Codec._NVTX_PAYLOAD_TYPE_DOUBLE
      ∧ Codec._payload ea = Codec.set_d_value f
  end.
Proof.
  destruct message, color, category, payload; split; reflexivity.
Qed.

(** C5: the record encoded from message ["hi"], color [0xffff0000],
    payload [42] and category [7] reads back as message ["hi"], color
    [0xffff0000] (the accessor gives its hexadecimal text) of kind ARGB,
    payload [42] of kind signed-64, and category [7]. *)
Theorem encode_decode_example
    {memory : Type} (wide_read_of_narrow : memory → string → outcome pyval)
    (narrow_read_of_wide : string → pyval) (mem : memory) :
  let ea := Codec._create_event (Some "hi"%string) (Some 0xffff0000) (VInt 42) (Some 7) in
  Codec.message wide_read_of_narrow narrow_read_of_wide mem ea = Ok (VBytes "hi")
  ∧ Codec.color ea = Ok (VStr "0xffff0000")
  ∧ Codec._color ea = 0xffff0000
  ∧ Codec._color_type ea = Codec._NVTX_COLOR_ARGB
  ∧ Codec.payload ea = Ok (VInt 42)
  ∧ Codec._payload_type ea = Codec._NVTX_PAYLOAD_TYPE_INT64
  ∧ Codec.category ea = 7.
Proof.
  cbv zeta. repeat split; vm_compute; reflexivity.
Qed.

(** C6: an integral payload selects the signed-64 kind and is stored
    through the signed-64 field (reduced to 64 bits, hence unchanged
    when it fits); a float payload selects the double kind and is stored
    through the double field; the unsigned-64 kind is never selected;
    an absent payload leaves the kind at none and the union zeroed. *)
Theorem payload_kind_selection
    (message : option string) (color : option Z) (payload : pyval)
    (category : option Z) :
  let ea := Codec._create_event message color payload category in
  (∀ z, Codec.as_Integral payload = Some z →
     Codec._payload_type ea = Codec._NVTX_PAYLOAD_TYPE_INT64
     ∧ Codec.ll_value (Codec._payload ea) = Codec.c_int 64 z
     ∧ (- 2 ^ 63 ≤ z < 2 ^ 63 → Codec.ll_value (Codec._payload ea) = z))
  ∧ (∀ f, payload = VFloat f →
     Codec._payload_type ea = Codec._NVTX_PAYLOAD_TYPE_DOUBLE
     ∧ Codec.payload_bits (Codec._payload ea) = Codec.bits_of_double f)
  ∧ Codec._payload_type ea ≠ Codec._NVTX_PAYLOAD_TYPE_UNSIGNED_INT64
  ∧ (payload = VNone →
     Codec._payload_type ea = Codec._NVTX_PAYLOAD_UNKNOWN
     ∧ Codec.payload_bits (Codec._payload ea) = 0).
Proof.
  intros ea.
  pose proof (create_event_payload_type_cases message color payload category) as H.
  cbv zeta in H. fold ea in H.
  split; [|split; [|split]].
  - intros z Hz.
    assert (Codec._payload_type ea = Codec._NVTX_PAYLOAD_TYPE_INT64
            ∧ Codec._payload ea = Codec.set_ll_value z) as [Hk Hp].
    { destruct payload; try discriminate; simpl in Hz; simplify_eq; exact H. }
    split; [exact Hk|]. rewrite Hp.
    unfold Codec.ll_value, Codec.set_ll_value; simpl.
    rewrite c_int_c_uint by lia.
    split; [reflexivity|]. intros Hz'.
    apply (c_int_in_range 64); [lia | exact Hz'].
  - intros f ->. destruct H as [Hk ->]. split; [exact Hk | reflexivity].
  - destruct payload; destruct H as [-> _]; discriminate.
  - intros ->. destruct H as [Hk ->]. split; [exact Hk | reflexivity].
Qed.

Lemma payload_kind_selection_witness :
  Codec._payload_type (Codec._create_event (Some "m"%string) None (VInt (-5)) None)
    = Codec._NVTX_PAYLOAD_TYPE_INT64
  ∧ Codec.ll_value (Codec._payload (Codec._create_event (Some "m"%string) None (VInt (-5)) None))
    = -5.
Proof.
  pose proof (proj1 (payload_kind_selection (Some "m"%string) None (VInt (-5)) None)
                (-5) eq_refl) as (Hk & _ & Hv).
  split; [exact Hk | apply Hv; lia].
Defined.

Example payload_bool_is_integral :
  Codec.payload (Codec._create_event None None (VBool true) None) = Ok (VInt 1).
Proof. vm_compute. reflexivity. Qed.

Example payload_wraps_to_64_bits :
  Codec.payload (Codec._create_event None None (VInt (2 ^ 63)) None) = Ok (VInt (- 2 ^ 63)).
Proof. vm_compute. reflexivity. Qed.

Example payload_float_reads_back :
  Codec.payload (Codec._create_event None None (VFloat 2.5) None) = Ok (VFloat 2.5).
Proof. vm_compute. reflexivity. Qed.

Example payload_text_is_ignored :
  Codec.payload (Codec._create_event None None (VBytes "x") None) = Ok VNone.
Proof. vm_compute. reflexivity. Qed.

(** C7: each accessor dispatches on its kind field and on nothing else:
    kind none gives [None]; each known kind gives the reading of the
    matching union field, whatever the other fields hold; and every
    other kind raises [AttributeError].  For the message of kind
    UNICODE the reading is that of [_message.unicode]: the text up to
    its terminator when the pointer is to wide text, [None] when it is
    null, and, when the pointer is to a narrow buffer, whatever the
    wide read of that memory gives, an exception of that read
    included. *)
Theorem accessors_dispatch_on_kind
    {memory : Type} (wide_read_of_narrow : memory → string → outcome pyval)
    (narrow_read_of_wide : string → pyval) (mem : memory)
    (self : Codec._EventAttributes_v1) :
  let message := Codec.message wide_read_of_narrow narrow_read_of_wide mem in
  let ascii := Codec.ascii narrow_read_of_wide in
  let unicode := Codec.unicode wide_read_of_narrow mem in
  ((Codec._payload_type self = 0 → Codec.payload self = Ok VNone)
   ∧ (Codec._payload_type self = 1 →
        Codec.payload self = Ok (VInt (Codec.ull_value (Codec._payload self))))
   ∧ (Codec._payload_type self = 2 →
        Codec.payload self = Ok (VInt (Codec.ll_value (Codec._payload self))))
   ∧ (Codec._payload_type self = 3 →
        Codec.payload self = Ok (VFloat (Codec.d_value (Codec._payload self))))
   ∧ (¬ (0 ≤ Codec._payload_type self ≤ 3) →
        Codec.payload self = Raise (AttributeError "Payload of unknown type")))
  ∧ ((Codec._color_type self = 0 → Codec.color self = Ok VNone)
     ∧ (Codec._color_type self = 1 →
          Codec.color self = Ok (VStr (Codec.hex (Codec._color self))))
     ∧ (¬ (0 ≤ Codec._color_type self ≤ 1) →
          Codec.color self = Raise (AttributeError "Color of unknown type")))
  ∧ ((Codec._message_type self = 0 → message self = Ok VNone)
     ∧ (Codec._message_type self = 1 → message self = Ok (ascii (Codec._message self)))
     ∧ (Codec._message_type self = 2 → message self = unicode (Codec._message self))
     ∧ (Codec._message_type self = 2 →
          ∀ t, Codec._message self = Codec.wide t →
               message self = Ok (VStr (Codec.c_str t)))
     ∧ (Codec._message_type self = 2 → Codec._message self = Codec.NULL →
          message self = Ok VNone)
     ∧ (Codec._message_type self = 2 →
          ∀ s, Codec._message self = Codec.narrow s →
               message self = wide_read_of_narrow mem s)
     ∧ (¬ (0 ≤ Codec._message_type self ≤ 2) →
          message self = Raise (AttributeError "Message of unknown type"))).
Proof.
  cbv zeta.
  unfold Codec.payload, Codec.color, Codec.message,
    Codec._NVTX_PAYLOAD_UNKNOWN, Codec._NVTX_PAYLOAD_TYPE_UNSIGNED_INT64,
    Codec._NVTX_PAYLOAD_TYPE_INT64, Codec._NVTX_PAYLOAD_TYPE_DOUBLE,
    Codec._NVTX_COLOR_UNKNOWN, Codec._NVTX_COLOR_ARGB,
    Codec._NVTX_MESSAGE_UNKNOWN, Codec._NVTX_MESSAGE_TYPE_ASCII,
    Codec._NVTX_MESSAGE_TYPE_UNICODE.
  repeat split; intros;
    repeat match goal with
           | H : Codec._message self = _ |- _ => rewrite H; clear H
           end;
    repeat (match goal with
            | |- context [?a =? ?b] => destruct (Z.eqb_spec a b)
            end; try lia; try reflexivity).
Qed.

Lemma accessors_dispatch_on_kind_witness :
  Codec.payload (Codec.set_payload_type 9 Codec.__init__)
  = Raise (AttributeError "Payload of unknown type")
  ∧ Codec.message sample_wide_read sample_narrow_read sample_memory
      (Codec.set_message (Codec.narrow "hell")
         (Codec.set_message_type 2 Codec.__init__))
    = Raise (ValueError "character U+6c6c6568 is not in range [U+0000; U+10ffff]")
  ∧ Codec.message sample_wide_read sample_narrow_read sample_memory
      (Codec.set_message (Codec.narrow "hell")
         (Codec.set_message_type 4 Codec.__init__))
    = Raise (AttributeError "Message of unknown type").
Proof.
  split; [|split].
  - refine (proj2 (proj2 (proj2 (proj2 (proj1
      (accessors_dispatch_on_kind sample_wide_read sample_narrow_read sample_memory
         (Codec.set_payload_type 9 Codec.__init__)))))) _).
    vm_compute. intros [_ H]. apply H. reflexivity.
  - pose proof (proj2 (proj2 (accessors_dispatch_on_kind sample_wide_read
                  sample_narrow_read sample_memory
                  (Codec.set_message (Codec.narrow "hell")
                     (Codec.set_message_type 2 Codec.__init__)))))
      as (_ & _ & _ & _ & _ & H & _).
    exact (H eq_refl "hell"%string eq_refl).
  - pose proof (proj2 (proj2 (accessors_dispatch_on_kind sample_wide_read
                  sample_narrow_read sample_memory
                  (Codec.set_message (Codec.narrow "hell")
                     (Codec.set_message_type 4 Codec.__init__)))))
      as (_ & _ & _ & _ & _ & _ & H).
    apply H. vm_compute. intros [_ H']. apply H'. reflexivity.
Defined.

Example color_unknown_kind_raises :
  Codec.color (Codec.set_color_type (-1) Codec.__init__)
  = Raise (AttributeError "Color of unknown type").
Proof. vm_compute. reflexivity. Qed.

Example message_wide_kind_reads_wide_field
    {memory : Type} (wr : memory → string → outcome pyval) (nr : string → pyval)
    (mem : memory) :
  Codec.message wr nr mem
    (Codec.set_message (Codec.wide "hi") (Codec.set_message_type 2 Codec.__init__))
  = Ok (VStr "hi").
Proof. reflexivity. Qed.

(** ** Library Binder and Instrumentation Facade *)

Lemma native_appends (c : native_call) (w : world) :
  ∃ w', native c w = (Ok tt, w')
        ∧ w_native w' = w_native w ++ [c]
        ∧ w_lists w' = w_lists w ∧ w_dicts w' = w_dicts w
        ∧ w_next w' = w_next w
        ∧ w_clock w' = w_clock w ∧ w_ticks w' = w_ticks w.
Proof. eexists. repeat split. Qed.

Lemma all_None_true (color : option Z) (payload : pyval) (category : option Z) :
  all_None color payload category = true
  ↔ color = None ∧ payload = VNone ∧ category = None.
Proof.
  split.
  - destruct color, payload, category; try discriminate; auto.
  - intros (-> & -> & ->). reflexivity.
Qed.

Lemma getattrs_missing (lib names : list string) (name : string) :
  name ∈ names → name ∉ lib → ∃ e, Binder.getattrs lib names = Raise e.
Proof.
  intros Hin Hlib. induction names as [|n r IH]; [inversion Hin|].
  simpl. unfold Binder.getattr. case_bool_decide as Hn.
  - apply IH. inversion Hin; subst; [contradiction | assumption].
  - eexists. reflexivity.
Qed.

Lemma getattrs_all_present (lib names : list string) :
  names ⊆ lib → Binder.getattrs lib names = Ok tt.
Proof.
  induction names as [|n r IH]; intros Hsub; [reflexivity|].
  simpl. unfold Binder.getattr. rewrite bool_decide_eq_true_2.
  - apply IH. intros x Hx. apply Hsub. by right.
  - apply Hsub. by left.
Qed.

(** X8: the binding is available exactly when the load succeeds and the
    library exports the five entry points. *)
Lemma bind_Bound_iff
    (os_path_join : string → string → string)
    (loader : option string → outcome (list string))
    (environ : gmap string string) (platform : string) :
  Binder.bind os_path_join loader environ platform = Bound
  ↔ ∃ lib, loader (Locator._get_cuda_nvtx_path os_path_join environ platform) = Ok lib
           ∧ ["nvtxMarkA"; "nvtxMarkEx"; "nvtxRangePushEx"; "nvtxRangePushA";
              "nvtxRangePop"]%string ⊆ lib.
Proof.
  unfold Binder.bind, Binder.try_body, Binder._load_lib.
  destruct (loader _) as [lib|e]; split.
  - intros H. exists lib. split; [reflexivity|].
    intros name Hname. destruct (decide (name ∈ lib)) as [|Hn]; [assumption|].
    destruct (getattrs_missing lib _ name Hname Hn) as [e He].
    rewrite He in H. discriminate.
  - intros (lib' & [= <-] & Hsub). by rewrite getattrs_all_present.
  - discriminate.
  - intros (lib' & [=] & _).
Qed.

(** C2: when the load fails or an entry point cannot be resolved, the
    binding is unavailable, and then [profile_mark],
    [profile_range_push] and [profile_range_pop] return normally on any
    arguments and leave the world, native log included, as it was. *)
Theorem unavailable_binding_is_noop
    (os_path_join : string → string → string)
    (loader : option string → outcome (list string))
    (environ : gmap string string) (platform : string) :
  let path := Locator._get_cuda_nvtx_path os_path_join environ platform in
  (∃ e, loader path = Raise e)
  ∨ (∃ lib name, loader path = Ok lib
       ∧ name ∈ ["nvtxMarkA"; "nvtxMarkEx"; "nvtxRangePushEx"; "nvtxRangePushA";
                  "nvtxRangePop"]%string
       ∧ name ∉ lib) →
  let b := Binder.bind os_path_join loader environ platform in
  b = Unavailable
  ∧ ∀ message color payload category w,
      profile_mark b message color payload category w = (Ok tt, w)
      ∧ profile_range_push b message color payload category w = (Ok tt, w)
      ∧ profile_range_pop b w = (Ok tt, w).
Proof.
  intros path Hfail b.
  assert (b = Unavailable) as ->; [|by repeat split].
  subst b. unfold Binder.bind, Binder.try_body, Binder._load_lib. fold path.
  destruct Hfail as [[e ->] | (lib & name & -> & Hname & Hlib)]; [reflexivity|].
  destruct (getattrs_missing lib _ name Hname Hlib) as [e ->]. reflexivity.
Qed.

Lemma unavailable_binding_is_noop_witness :
  let b := Binder.bind Locator.posixpath_join
             (λ _, Ok ["nvtxMarkA"; "nvtxRangePushA"; "nvtxRangePop"]%string)
             ∅ "linux" in
  let w := module_world (λ _, 0%float) in
  b = Unavailable
  ∧ profile_mark b (Some "m"%string) (Some 0xff00ff00) (VInt 3) (Some 2) w = (Ok tt, w)
  ∧ profile_range_push b (Some "r"%string) None (VFloat 0.5) None w = (Ok tt, w)
  ∧ profile_range_pop b w = (Ok tt, w).
Proof.
  intros b w.
  assert ("nvtxMarkEx"%string ∈ ["nvtxMarkA"; "nvtxMarkEx"; "nvtxRangePushEx";
                                  "nvtxRangePushA"; "nvtxRangePop"]%string) as Hin
    by (apply list_elem_of_In; simpl; tauto).
  assert ("nvtxMarkEx"%string ∉ ["nvtxMarkA"; "nvtxRangePushA"; "nvtxRangePop"]%string)
    as Hout
    by (intros H; apply list_elem_of_In in H; simpl in H;
        repeat destruct H as [H|H]; try discriminate H; exact H).
  pose proof (unavailable_binding_is_noop Locator.posixpath_join
                (λ _, Ok ["nvtxMarkA"; "nvtxRangePushA"; "nvtxRangePop"]%string)
                ∅ "linux"
                (or_intror (ex_intro _ _ (ex_intro _ _ (conj eq_refl (conj Hin Hout))))))
    as [Hb Hops].
  split; [exact Hb|].
  split; [apply (Hops (Some "m"%string) (Some 0xff00ff00) (VInt 3) (Some 2) w)|].
  split; [apply (Hops (Some "r"%string) None (VFloat 0.5) None w)|].
  apply (Hops None None VNone None w).
Defined.

Example load_failure_is_unavailable :
  Binder.bind Locator.posixpath_join (λ _, Raise (OSError "cannot open shared object file"))
    ∅ "linux" = Unavailable.
Proof. reflexivity. Qed.

Example full_library_is_bound :
  Binder.bind Locator.posixpath_join
    (λ _, Ok ["nvtxRangePop"; "nvtxRangePushA"; "nvtxRangePushEx"; "nvtxMarkEx";
              "nvtxMarkA"; "nvtxNameOsThreadA"]%string)
    ∅ "linux" = Bound.
Proof. reflexivity. Qed.

(** C8: with the binding available, [profile_mark] and
    [profile_range_push] with color, payload and category all absent
    make the one call [nvtxMarkA] / [nvtxRangePushA] on the message
    alone; with any of the three present they make the one call
    [nvtxMarkEx] / [nvtxRangePushEx] on the record [_create_event]
    builds from the four arguments. *)
Theorem fast_path_selection
    (message : option string) (color : option Z) (payload : pyval)
    (category : option Z) (w : world) :
  (color = None ∧ payload = VNone ∧ category = None →
     (∃ w', profile_mark Bound message color payload category w = (Ok tt, w')
            ∧ w_native w' = w_native w ++ [nvtxMarkA message])
     ∧ (∃ w', profile_range_push Bound message color payload category w = (Ok tt, w')
              ∧ w_native w' = w_native w ++ [nvtxRangePushA message]))
  ∧ (¬ (color = None ∧ payload = VNone ∧ category = None) →
     (∃ w', profile_mark Bound message color payload category w = (Ok tt, w')
            ∧ w_native w' = w_native w
                ++ [nvtxMarkEx (Codec._create_event message color payload category)])
     ∧ (∃ w', profile_range_push Bound message color payload category w = (Ok tt, w')
              ∧ w_native w' = w_native w
                  ++ [nvtxRangePushEx (Codec._create_event message color payload category)])).
Proof.
  unfold profile_mark, profile_range_push.
  split; intros H.
  - apply all_None_true in H. rewrite H.
    split; eexists; split; reflexivity.
  - destruct (all_None color payload category) eqn:E.
    + apply all_None_true in E. contradiction.
    + split; eexists; split; reflexivity.
Qed.

Lemma fast_path_selection_witness :
  let w := module_world (λ _, 0%float) in
  (∃ w', profile_mark Bound (Some "x"%string) None VNone None w = (Ok tt, w')
         ∧ w_native w' = [nvtxMarkA (Some "x"%string)])
  ∧ (∃ w', profile_mark Bound (Some "x"%string) None VNone (Some 0) w = (Ok tt, w')
           ∧ w_native w' =
               [nvtxMarkEx (Codec._create_event (Some "x"%string) None VNone (Some 0))]).
Proof.
  intros w. split.
  - apply (proj1 (fast_path_selection (Some "x"%string) None VNone None w)).
    repeat split.
  - apply (proj2 (fast_path_selection (Some "x"%string) None VNone (Some 0) w)).
    intros (_ & _ & H). discriminate H.
Defined.

(** ** Scoped ranges and the statistics table *)

Ltac munfold :=
  unfold mbind, mret, M_mbind, M_mret, M_bind, M_ret, lift, raise, time, native,
    new_list, new_dict, read_list, read_dict, write_list, write_dict in *.

Lemma profile_range_enter (b : binding) (name : string) (color : option Z)
    (payload : pyval) (category : option Z) (w : world) :
  ∃ w1,
    before_yield (profile_range b name color payload category) w
      = (Ok (w_clock w (w_ticks w)), w1)
    ∧ w_lists w1 = w_lists w ∧ w_dicts w1 = w_dicts w ∧ w_next w1 = w_next w
    ∧ w_clock w1 = w_clock w ∧ w_ticks w1 = S (w_ticks w)
    ∧ w_native w1 = w_native w ++
        match b with
        | Bound =>
            [if all_None color payload None then nvtxRangePushA (Some name)
             else nvtxRangePushEx (Codec._create_event (Some name) color payload None)]
        | Unavailable => []
        end.
Proof.
  unfold profile_range, profile_range_push; simpl.
  destruct b; [destruct (all_None color payload None)|]; munfold; simpl;
    eexists; repeat split; simpl; rewrite ?app_nil_r; reflexivity.
Qed.

Lemma dict_get_set_eq (k : string) (v : loc) (d : pydict) :
  dict_get k (dict_set k v d) = Some v.
Proof.
  induction d as [|[k' v'] r IH]; simpl.
  - by rewrite String.eqb_refl.
  - destruct (String.eqb k k') eqn:E; simpl; rewrite E; [reflexivity | exact IH].
Qed.

Lemma dict_get_set_ne (k k' : string) (v : loc) (d : pydict) :
  k ≠ k' → dict_get k' (dict_set k v d) = dict_get k' d.
Proof.
  intros Hne. induction d as [|[k0 v0] r IH]; simpl.
  - destruct (String.eqb_spec k' k); [congruence | reflexivity].
  - destruct (String.eqb_spec k k0); simpl.
    + subst k0. destruct (String.eqb_spec k' k); [congruence | reflexivity].
    + destruct (String.eqb_spec k' k0); [reflexivity | exact IH].
Qed.

Lemma after_yield_creates (b : binding) (name : string) (color : option Z)
    (payload : pyval) (category : option Z) (t0 : float) (w : world) :
  stat_of w name = None ∨ stat_of w name = Some [] →
  ∃ w',
    after_yield (profile_range b name color payload category) t0 w = (Ok tt, w')
    ∧ stat_of w' name = Some [VInt 1; VFloat (PrimFloat.sub (w_clock w (w_ticks w)) t0)]
    ∧ (∀ other, other ≠ name →
         dict_get other (default [] (w_dicts w' !! _stats))
         = dict_get other (default [] (w_dicts w !! _stats)))
    ∧ w_lists w' = <[w_next w := [VInt 1; VFloat (PrimFloat.sub (w_clock w (w_ticks w)) t0)]]> (w_lists w)
    ∧ w_next w' = S (w_next w)
    ∧ w_ticks w' = S (w_ticks w)
    ∧ w_clock w' = w_clock w
    ∧ w_native w' = w_native w ++ match b with Bound => [nvtxRangePop] | Unavailable => [] end
    ∧ w_dicts w' = <[_stats := dict_set name (w_next w) (default [] (w_dicts w !! _stats))]>
                     (w_dicts w).
Proof.
  intros H. unfold profile_range, profile_range_pop, truthy; simpl.
  unfold stat_of in H.
  destruct (dict_get name (default [] (w_dicts w !! _stats))) as [l|] eqn:Hget.
  - assert (default [] (w_lists w !! l) = []) as Hl
      by (destruct H as [-> | ->]; reflexivity).
    munfold; simpl. rewrite Hget; simpl. rewrite Hl; simpl.
    destruct b; simpl; eexists; (split; [reflexivity|]); simpl;
      unfold stat_of; simpl; rewrite lookup_insert_eq; simpl;
      rewrite dict_get_set_eq, lookup_insert_eq, ?app_nil_r;
      repeat split; intros; by rewrite dict_get_set_ne.
  - munfold; simpl. rewrite Hget; simpl.
    destruct b; simpl; eexists; (split; [reflexivity|]); simpl;
      unfold stat_of; simpl; rewrite lookup_insert_eq; simpl;
      rewrite dict_get_set_eq, lookup_insert_eq, ?app_nil_r;
      repeat split; intros; by rewrite dict_get_set_ne.
Qed.

Lemma after_yield_increments (b : binding) (name : string) (color : option Z)
    (payload : pyval) (category : option Z) (t0 : float) (w : world)
    (count : Z) (total : float) :
  stat_of w name = Some [VInt count; VFloat total] →
  ∃ w' l,
    after_yield (profile_range b name color payload category) t0 w = (Ok tt, w')
    ∧ dict_get name (default [] (w_dicts w !! _stats)) = Some l
    ∧ w_dicts w' = w_dicts w
    ∧ w_lists w' =
        <[l := [VInt (count + 1);
                VFloat (PrimFloat.add total (PrimFloat.sub (w_clock w (w_ticks w)) t0))]]>
          (w_lists w)
    ∧ w_next w' = w_next w
    ∧ w_ticks w' = S (w_ticks w)
    ∧ w_clock w' = w_clock w
    ∧ w_native w' = w_native w ++ match b with Bound => [nvtxRangePop] | Unavailable => [] end.
Proof.
  intros H. unfold profile_range, profile_range_pop, truthy, list_iadd; simpl.
  unfold stat_of in H.
  destruct (dict_get name (default [] (w_dicts w !! _stats))) as [l|] eqn:Hget;
    [|discriminate].
  munfold; simpl. rewrite Hget; simpl.
  repeat (rewrite ?H, ?lookup_insert_eq; simpl).
  rewrite insert_insert_eq.
  destruct b; simpl; eexists; exists l; (split; [reflexivity|]); simpl;
    rewrite ?app_nil_r; repeat split.
Qed.

Lemma with_normal {L A} (g : generator L) (body : M A) (w w1 w2 w3 : world)
    (frame : L) (a : A) :
  before_yield g w = (Ok frame, w1) →
  body w1 = (Ok a, w2) →
  after_yield g frame w2 = (Ok tt, w3) →
  with_ g body w = (Ok a, w3).
Proof. intros H1 H2 H3. unfold with_. by rewrite H1, H2, H3. Qed.

Lemma with_raise {L A} (g : generator L) (body : M A) (w w1 w2 : world)
    (frame : L) (e : exn) :
  before_yield g w = (Ok frame, w1) →
  body w1 = (Raise e, w2) →
  with_ g body w = (Raise e, w2).
Proof. intros H1 H2. unfold with_. by rewrite H1, H2. Qed.

Lemma stat_of_ext (w w' : world) (name : string) :
  w_lists w' = w_lists w → w_dicts w' = w_dicts w → stat_of w' name = stat_of w name.
Proof. intros Hl Hd. unfold stat_of. by rewrite Hl, Hd. Qed.

Lemma count_push_pop_calls (b : binding) (c : native_call) :
  is_push c = true → is_pop c = false →
  count_push (match b with Bound => [c] | Unavailable => [] end)
  = count_pop (match b with Bound => [nvtxRangePop] | Unavailable => [] end)
  ∧ count_pop (match b with Bound => [c] | Unavailable => [] end) = 0%nat
  ∧ count_push (match b with Bound => [nvtxRangePop] | Unavailable => [] end) = 0%nat
  ∧ (b = Bound → count_push (match b with Bound => [c] | Unavailable => [] end) = 1%nat).
Proof.
  intros Hpush Hpop. unfold count_push, count_pop.
  destruct b; simpl; rewrite ?Hpush, ?Hpop; simpl; repeat split; try discriminate.
Qed.

(** C1 (amended): when the block of [with profile_range(...)] completes
    normally and the entry for the name is one the module made, the
    statement returns the block's result, the calls it adds to the
    native log are those of one [profile_range_push] before the block
    and one [profile_range_pop] after it, and the two add the same number
    of range pushes and pops (one each when the binding is available).
    When the block raises, the statement ends with the block's exception
    in the block's final world: nothing after the [yield] runs, so the
    push is not followed by a pop. *)
Theorem range_pop_once_per_push
    (b : binding) (name : string) (color : option Z) (payload : pyval)
    (category : option Z) (A : Type) (body : M A) (w : world) :
  let g := profile_range b name color payload category in
  let w1 := (before_yield g w).2 in
  (∀ a w2, body w1 = (Ok a, w2) → stat_entry_ok w2 name →
     ∃ w3 pushes pops,
       with_ g body w = (Ok a, w3)
       ∧ w_native w1 = w_native w ++ pushes
       ∧ w_native w3 = w_native w2 ++ pops
       ∧ count_push pushes = count_pop pops
       ∧ count_pop pushes = 0%nat
       ∧ count_push pops = 0%nat
       ∧ (b = Bound → count_push pushes = 1%nat))
  ∧ (∀ e w2, body w1 = (Raise e, w2) →
       with_ g body w = (Raise e, w2)
       ∧ ∃ pushes, w_native w1 = w_native w ++ pushes
                   ∧ (b = Bound → count_push pushes = 1%nat)).
Proof.
  intros g w1.
  destruct (profile_range_enter b name color payload category w)
    as (w1' & Hent & _ & _ & _ & _ & _ & Hlog).
  fold g in Hent. assert (w1 = w1') as Hw1 by (unfold w1; by rewrite Hent).
  rewrite <- Hw1 in *. clear w1' Hw1.
  set (push := if all_None color payload None then nvtxRangePushA (Some name)
               else nvtxRangePushEx (Codec._create_event (Some name) color payload None))
    in Hlog.
  assert (is_push push = true ∧ is_pop push = false) as [Hpush Hpop]
    by (unfold push; destruct (all_None color payload None); split; reflexivity).
  destruct (count_push_pop_calls b push Hpush Hpop) as (Hbal & Hz1 & Hz2 & Hone).
  split.
  - intros a w2 Hbody Hok.
    assert (∃ w3, after_yield g (w_clock w (w_ticks w)) w2 = (Ok tt, w3)
                  ∧ w_native w3 = w_native w2
                      ++ match b with Bound => [nvtxRangePop] | Unavailable => [] end)
      as (w3 & Hexit & Hlog3).
    { unfold stat_entry_ok in Hok.
      destruct (stat_of w2 name) as [xs|] eqn:Hstat.
      - destruct Hok as [-> | (count & total & ->)].
        + destruct (after_yield_creates b name color payload category
                      (w_clock w (w_ticks w)) w2 (or_intror Hstat))
            as (w3 & H3 & _ & _ & _ & _ & _ & _ & Hl & _). eauto.
        + destruct (after_yield_increments b name color payload category
                      (w_clock w (w_ticks w)) w2 count total Hstat)
            as (w3 & l & H3 & _ & _ & _ & _ & _ & _ & Hl). eauto.
      - destruct (after_yield_creates b name color payload category
                    (w_clock w (w_ticks w)) w2 (or_introl Hstat))
          as (w3 & H3 & _ & _ & _ & _ & _ & _ & Hl & _). eauto. }
    exists w3. eexists. eexists.
    split; [exact (with_normal g body w w1 w2 w3 _ a Hent Hbody Hexit)|].
    split; [exact Hlog|]. split; [exact Hlog3|]. auto.
  - intros e w2 Hbody.
    split; [exact (with_raise g body w w1 w2 _ e Hent Hbody)|].
    eexists. split; [exact Hlog | exact Hone].
Qed.

Lemma create_event_category_None (message : option string) (color : option Z)
    (payload : pyval) :
  Codec.category (Codec._create_event message color payload None) = 0.
Proof. destruct message, color, payload; reflexivity. Qed.

(** C10: the [category] argument of [profile_range],
    [profile_range_nvtx_only] and [profiled] does not reach the range
    push: the context managers and the wrapper are the same for every
    [category] as for [None], and with the binding available the push is
    [nvtxRangePushA] on the name, or [nvtxRangePushEx] on a record
    encoded with [category=None], whose category field is 0. *)
Theorem range_category_discarded
    (b : binding) (name : string) (color : option Z) (payload : pyval)
    (category : option Z) :
  profile_range b name color payload category
    = profile_range b name color payload None
  ∧ profile_range_nvtx_only b name color payload category
    = profile_range_nvtx_only b name color payload None
  ∧ (∀ (A : Type) (func : M A),
       profiled b name category color payload func
       = profiled b name None color payload func)
  ∧ ∀ w, ∃ w1 call,
      before_yield (profile_range Bound name color payload category) w
        = (Ok (w_clock w (w_ticks w)), w1)
      ∧ w_native w1 = w_native w ++ [call]
      ∧ (call = nvtxRangePushA (Some name)
         ∨ ∃ evnt, call = nvtxRangePushEx evnt
                   ∧ evnt = Codec._create_event (Some name) color payload None
                   ∧ Codec.category evnt = 0).
Proof.
  repeat split.
  intros w.
  destruct (profile_range_enter Bound name color payload category w)
    as (w1 & Hent & _ & _ & _ & _ & _ & Hlog).
  exists w1. eexists. split; [exact Hent|]. split; [exact Hlog|].
  destruct (all_None color payload None).
  - by left.
  - right. eexists. split; [reflexivity|]. split; [reflexivity|].
    apply create_event_category_None.
Qed.

Lemma with_range_creates
    (b : binding) (name : string) (color : option Z) (payload : pyval)
    (category : option Z) (A : Type) (body : M A) (w : world) (a : A) (w2 : world) :
  let g := profile_range b name color payload category in
  body (before_yield g w).2 = (Ok a, w2) →
  stat_of w2 name = None →
  ∃ w3, with_ g body w = (Ok a, w3)
        ∧ stat_of w3 name
          = Some [VInt 1;
                  VFloat (PrimFloat.sub (w_clock w2 (w_ticks w2)) (w_clock w (w_ticks w)))].
Proof.
  intros g Hbody Hstat.
  destruct (profile_range_enter b name color payload category w) as (w1 & Hent & _).
  fold g in Hent. rewrite Hent in Hbody. simpl in Hbody.
  destruct (after_yield_creates b name color payload category
              (w_clock w (w_ticks w)) w2 (or_introl Hstat)) as (w3 & H3 & Hs & _).
  exists w3. split; [|exact Hs].
  exact (with_normal g body w w1 w2 w3 _ a Hent Hbody H3).
Qed.

Lemma with_range_increments
    (b : binding) (name : string) (color : option Z) (payload : pyval)
    (category : option Z) (A : Type) (body : M A) (w : world) (a : A) (w2 : world)
    (count : Z) (total : float) :
  let g := profile_range b name color payload category in
  let elapsed := PrimFloat.sub (w_clock w2 (w_ticks w2)) (w_clock w (w_ticks w)) in
  body (before_yield g w).2 = (Ok a, w2) →
  stat_of w2 name = Some [VInt count; VFloat total] →
  ∃ w3 l, with_ g body w = (Ok a, w3)
          ∧ dict_get name (default [] (w_dicts w2 !! _stats)) = Some l
          ∧ w_dicts w3 = w_dicts w2
          ∧ w_lists w3
            = <[l := [VInt (count + 1); VFloat (PrimFloat.add total elapsed)]]> (w_lists w2)
          ∧ stat_of w3 name
            = Some [VInt (count + 1); VFloat (PrimFloat.add total elapsed)].
Proof.
  intros g elapsed Hbody Hstat.
  destruct (profile_range_enter b name color payload category w) as (w1 & Hent & _).
  fold g in Hent. rewrite Hent in Hbody. simpl in Hbody.
  destruct (after_yield_increments b name color payload category
              (w_clock w (w_ticks w)) w2 count total Hstat)
    as (w3 & l & H3 & Hget & Hd & Hl & _).
  exists w3, l.
  split; [exact (with_normal g body w w1 w2 w3 _ a Hent Hbody H3)|].
  repeat split; try assumption.
  unfold stat_of. rewrite Hd, Hget, Hl. apply lookup_insert_eq.
Qed.

Lemma elapsed_list_cons (b : binding) (name : string) (color : option Z)
    (payload : pyval) (category : option Z) (body : M unit) (r : list invocation)
    (w w1 w2 w3 : world) (t0 : float) (o2 o3 : outcome unit) :
  before_yield (profile_range b name color payload category) w = (Ok t0, w1) →
  body w1 = (o2, w2) →
  with_ (profile_range b name color payload category) body w = (o3, w3) →
  elapsed_list b name ((color, payload, category, body) :: r) w
  = PrimFloat.sub (w_clock w2 (w_ticks w2)) t0 :: elapsed_list b name r w3.
Proof.
  intros H1 H2 H3.
  change (elapsed_list b name ((color, payload, category, body) :: r) w)
    with (let g := profile_range b name color payload category in
          let '(t0, w1) := before_yield g w in
          let w2 := (body w1).2 in
          match t0 with
          | Ok t0 =>
              PrimFloat.sub (w_clock w2 (w_ticks w2)) t0
                :: elapsed_list b name r (with_ g body w).2
          | Raise _ => []
          end).
  cbv zeta. rewrite H1, H2, H3. reflexivity.
Qed.

Lemma blocks_leave_entry_cons (b : binding) (name : string) (color : option Z)
    (payload : pyval) (category : option Z) (body : M unit) (r : list invocation)
    (w w1 : world) (t0 : float) :
  before_yield (profile_range b name color payload category) w = (Ok t0, w1) →
  blocks_leave_entry b name ((color, payload, category, body) :: r) w →
  ∃ w2, body w1 = (Ok tt, w2) ∧ stat_of w2 name = stat_of w1 name
        ∧ blocks_leave_entry b name r
            (with_ (profile_range b name color payload category) body w).2.
Proof.
  intros Hent H.
  change (let g := profile_range b name color payload category in
          let w1 := (before_yield g w).2 in
          (∃ w2, body w1 = (Ok tt, w2) ∧ stat_of w2 name = stat_of w1 name)
          ∧ blocks_leave_entry b name r (with_ g body w).2) in H.
  cbv zeta in H. rewrite Hent in H. destruct H as [(w2 & Hb & Hs) Hr].
  exists w2. auto.
Qed.

Lemma leaves_entry_along (b : binding) (name : string) (invs : list invocation) :
  Forall (λ inv, leaves_entry name inv.2) invs →
  ∀ w, blocks_leave_entry b name invs w.
Proof.
  induction 1 as [|[[[color payload] category] body] r Hbody Hr IH]; intros w;
    [exact I|].
  split; [|apply IH].
  destruct (Hbody (before_yield (profile_range b name color payload category) w).2)
    as (w2 & Hb & Hs).
  exists w2. auto.
Qed.

Lemma run_ranges_accumulates (b : binding) (name : string) (invs : list invocation) :
  ∀ (w : world) (count : Z) (total : float),
    blocks_leave_entry b name invs w →
    stat_of w name = Some [VInt count; VFloat total] →
    ∃ w', run_ranges b name invs w = (Ok tt, w')
          ∧ stat_of w' name
            = Some [VInt (count + Z.of_nat (length invs));
                    VFloat (foldl PrimFloat.add total (elapsed_list b name invs w))].
Proof.
  induction invs as [|[[[color payload] category] body] r IH];
    intros w count total Hall Hstat.
  - exists w. split; [reflexivity|]. simpl. by rewrite Z.add_0_r.
  - destruct (profile_range_enter b name color payload category w)
      as (w1 & Hent & Hl1 & Hd1 & _).
    destruct (blocks_leave_entry_cons b name color payload category body r w w1 _
                Hent Hall) as (w2 & Hb & Hs2 & Hr).
    assert (stat_of w2 name = Some [VInt count; VFloat total]) as Hstat2
      by (rewrite Hs2, (stat_of_ext w w1 name Hl1 Hd1); exact Hstat).
    assert (body (before_yield (profile_range b name color payload category) w).2
            = (Ok tt, w2)) as Hb' by (by rewrite Hent).
    destruct (with_range_increments b name color payload category unit body w tt w2
                count total Hb' Hstat2) as (w3 & l & Hwith & _ & _ & _ & Hs3).
    rewrite Hwith in Hr. cbn [snd] in Hr.
    destruct (IH w3 _ _ Hr Hs3) as (w' & Hrun & Hs').
    exists w'. split.
    + simpl. unfold mbind, M_mbind, M_bind. by rewrite Hwith.
    + rewrite Hs'.
      rewrite (elapsed_list_cons b name color payload category body r
                 w w1 w2 w3 _ _ _ Hent Hb Hwith).
      simpl. do 3 f_equal. lia.
Qed.

(** C3 (amended): on an exit of [profile_range(name, ...)] whose block
    completed normally, with [elapsed] the clock reading after the block
    minus the one before it: when [name] has no entry the entry
    [[1, elapsed]] is created; when its entry is [[count, total]] that
    same list object becomes [[count + 1, total + elapsed]].  Hence a run
    of n such statements, started with no entry, in which each block
    completes normally and leaves the entry as it found it, ends with
    [[n, d1 + ... + dn]]; the blocks may hold ranges on other names.
    When the block raises, the statement raises the same exception and
    the world, the table in it, is exactly as the block left it: no
    entry is created and none is changed. *)
Theorem range_exit_records_elapsed (b : binding) (name : string) :
  (∀ (color : option Z) (payload : pyval) (category : option Z)
     (A : Type) (body : M A) (w : world) (a : A) (w2 : world),
     let g := profile_range b name color payload category in
     let elapsed := PrimFloat.sub (w_clock w2 (w_ticks w2)) (w_clock w (w_ticks w)) in
     body (before_yield g w).2 = (Ok a, w2) →
     (stat_of w2 name = None →
        ∃ w3, with_ g body w = (Ok a, w3)
              ∧ stat_of w3 name = Some [VInt 1; VFloat elapsed])
     ∧ (∀ count total, stat_of w2 name = Some [VInt count; VFloat total] →
          ∃ w3 l, with_ g body w = (Ok a, w3)
                  ∧ dict_get name (default [] (w_dicts w2 !! _stats)) = Some l
                  ∧ w_dicts w3 = w_dicts w2
                  ∧ w_lists w3
                    = <[l := [VInt (count + 1); VFloat (PrimFloat.add total elapsed)]]>
                        (w_lists w2)
                  ∧ stat_of w3 name
                    = Some [VInt (count + 1); VFloat (PrimFloat.add total elapsed)]))
  ∧ (∀ (invs : list invocation) (w : world),
       invs ≠ [] →
       blocks_leave_entry b name invs w →
       stat_of w name = None →
       ∃ w', run_ranges b name invs w = (Ok tt, w')
             ∧ stat_of w' name
               = Some [VInt (Z.of_nat (length invs));
                       VFloat (float_sum (elapsed_list b name invs w))])
  ∧ (∀ (color : option Z) (payload : pyval) (category : option Z)
       (A : Type) (body : M A) (w : world) (e : exn) (w2 : world),
       let g := profile_range b name color payload category in
       body (before_yield g w).2 = (Raise e, w2) →
       with_ g body w = (Raise e, w2)
       ∧ w_dicts (with_ g body w).2 = w_dicts w2
       ∧ w_lists (with_ g body w).2 = w_lists w2
       ∧ ∀ other, stat_of (with_ g body w).2 other = stat_of w2 other).
Proof.
  split; [|split].
  - intros color payload category A body w a w2 g elapsed Hbody. split.
    + intros Hstat.
      exact (with_range_creates b name color payload category A body w a w2 Hbody Hstat).
    + intros count total Hstat.
      exact (with_range_increments b name color payload category A body w a w2
               count total Hbody Hstat).
  - intros [|[[[color payload] category] body] r] w Hne Hall Hstat; [done|].
    destruct (profile_range_enter b name color payload category w)
      as (w1 & Hent & Hl1 & Hd1 & _).
    destruct (blocks_leave_entry_cons b name color payload category body r w w1 _
                Hent Hall) as (w2 & Hb & Hs2 & Hr).
    assert (stat_of w2 name = None) as Hstat2
      by (rewrite Hs2, (stat_of_ext w w1 name Hl1 Hd1); exact Hstat).
    assert (body (before_yield (profile_range b name color payload category) w).2
            = (Ok tt, w2)) as Hb' by (by rewrite Hent).
    destruct (with_range_creates b name color payload category unit body w tt w2
                Hb' Hstat2) as (w3 & Hwith & Hs3).
    rewrite Hwith in Hr. cbn [snd] in Hr.
    destruct (run_ranges_accumulates b name r w3 _ _ Hr Hs3) as (w' & Hrun & Hs').
    exists w'. split.
    + simpl. unfold mbind, M_mbind, M_bind. by rewrite Hwith.
    + rewrite Hs'.
      rewrite (elapsed_list_cons b name color payload category body r
                 w w1 w2 w3 _ _ _ Hent Hb Hwith).
      simpl. do 3 f_equal. lia.
  - intros color payload category A body w e w2 g Hbody.
    destruct (profile_range_enter b name color payload category w) as (w1 & Hent & _).
    fold g in Hent. rewrite Hent in Hbody. cbn [snd] in Hbody.
    rewrite (with_raise g body w w1 w2 _ e Hent Hbody). auto.
Qed.

Lemma tick_leaves_entry (name : string) : leaves_entry name (time;; mret tt).
Proof. intros w. eexists. split; reflexivity. Qed.

Lemma range_exit_records_elapsed_witness :
  (∃ w', run_ranges Bound "x" sample_run_around (module_world sample_clock_long)
         = (Ok tt, w')
         ∧ stat_of w' "x" = Some [VInt 3; VFloat 80]
         ∧ stat_of w' "y" = Some [VInt 1; VFloat 20])
  ∧ (∃ w', run_ranges Bound "x" sample_run (module_world sample_clock) = (Ok tt, w')
           ∧ stat_of w' "x" = Some [VInt 3; VFloat 48])
  ∧ stat_of (with_ (profile_range Bound "x" None VNone None)
               (raise (UserError "boom") : M unit)
               (module_world sample_clock)).2 "x" = None.
Proof.
  split; [|split].
  - assert (blocks_leave_entry Bound "x" sample_run_around
              (module_world sample_clock_long)) as Hall
      by (repeat split; eexists; split; vm_compute; reflexivity).
    assert (sample_run_around ≠ []) as Hne by discriminate.
    destruct (proj1 (proj2 (range_exit_records_elapsed Bound "x")) sample_run_around
                (module_world sample_clock_long) Hne Hall eq_refl)
      as (w' & Hrun & Hstat).
    exists w'. split; [exact Hrun|].
    split; [rewrite Hstat; vm_compute; reflexivity|].
    assert (w' = (run_ranges Bound "x" sample_run_around
                    (module_world sample_clock_long)).2) as ->
      by (by rewrite Hrun).
    vm_compute. reflexivity.
  - assert (blocks_leave_entry Bound "x" sample_run (module_world sample_clock)) as Hall
      by (apply leaves_entry_along; repeat constructor; apply tick_leaves_entry).
    assert (sample_run ≠ []) as Hne by discriminate.
    destruct (proj1 (proj2 (range_exit_records_elapsed Bound "x")) sample_run
                (module_world sample_clock) Hne Hall eq_refl) as (w' & Hrun & Hstat).
    exists w'. split; [exact Hrun|]. rewrite Hstat. vm_compute. reflexivity.
  - destruct (proj2 (proj2 (range_exit_records_elapsed Bound "x")) None VNone None
                unit (raise (UserError "boom")) (module_world sample_clock)
                (UserError "boom")
                (before_yield (profile_range Bound "x" None VNone None)
                   (module_world sample_clock)).2 eq_refl)
      as (_ & _ & _ & Hs).
    rewrite Hs. vm_compute. reflexivity.
Defined.

(** C1, as stated, fails: a block that raises leaves one range push in
    the native log and no pop. *)
Lemma pop_skipped_when_block_raises :
  let w := module_world sample_clock in
  let r := with_ (profile_range Bound "x" None VNone None)
             (raise (UserError "boom") : M unit) w in
  r.1 = Raise (UserError "boom")
  ∧ w_native r.2 = [nvtxRangePushA (Some "x"%string)]
  ∧ count_push (w_native r.2) = 1%nat
  ∧ count_pop (w_native r.2) = 0%nat.
Proof. vm_compute. repeat split. Qed.

(** C3, as stated, fails: on an exit by exception the table is not
    updated. *)
Lemma stats_skipped_when_block_raises :
  let w := module_world sample_clock in
  let r := with_ (profile_range Bound "x" None VNone None)
             (raise (UserError "boom") : M unit) w in
  r.1 = Raise (UserError "boom")
  ∧ stat_of r.2 "x" = None
  ∧ contents r.2 _stats = [].
Proof. vm_compute. repeat split. Qed.

(** ** Statistics snapshot *)

Lemma dict_set_fresh (k : string) (v : loc) (d : pydict) :
  k ∉ d.*1 → dict_set k v d = d ++ [(k, v)].
Proof.
  induction d as [|[k' v'] r IH]; simpl; intros Hk; [reflexivity|].
  apply not_elem_of_cons in Hk as [Hne Hk].
  destruct (String.eqb_spec k k'); [contradiction|].
  by rewrite IH.
Qed.

Lemma dict_get_elem (k : string) (l : loc) (d : pydict) :
  dict_get k d = Some l → (k, l) ∈ d.
Proof.
  induction d as [|[k' v'] r IH]; simpl; [discriminate|].
  destruct (String.eqb_spec k k') as [->|]; intros H.
  - injection H as ->. by left.
  - right. by apply IH.
Qed.

Lemma Forall_dict_set (P : string * loc → Prop) (k : string) (v : loc) (d : pydict) :
  (∀ k', P (k', v)) → Forall P d → Forall P (dict_set k v d).
Proof.
  intros Hv. induction 1 as [|[k' v'] r Hx Hr IH]; simpl.
  - by constructor.
  - destruct (String.eqb k k'); constructor; auto.
Qed.

Lemma Forall_dict_del (P : string * loc → Prop) (k : string) (d : pydict) :
  Forall P d → Forall P (dict_del k d).
Proof.
  induction 1 as [|[k' v'] r Hx Hr IH]; simpl; [constructor|].
  destruct (String.eqb k k'); [assumption | by constructor].
Qed.

(** The copying loop: entries are appended to the new dict in order,
    each referring to a list created during the pass that holds what the
    source list held; nothing created before the pass is written. *)
Lemma deepcopy_items_spec (n0 : loc) (L0 : gmap loc (list pyval)) :
  ∀ (items : pydict) (memo : list (loc * loc)) (w : world) (dy : pydict),
    (n0 < w_next w)%nat →
    (∀ x, (x < n0)%nat → w_lists w !! x = L0 !! x) →
    w_dicts w !! n0 = Some dy →
    NoDup (dy.*1 ++ items.*1) →
    Forall (λ kv, (kv.2 < n0)%nat) items →
    (∀ x x', memo_get x memo = Some x' →
       (n0 < x' < w_next w)%nat ∧ w_lists w !! x' = Some (default [] (L0 !! x))) →
    ∃ w' dy',
      deepcopy_items n0 items memo w = (Ok tt, w')
      ∧ w_dicts w' !! n0 = Some (dy ++ dy')
      ∧ (∀ x, (x < w_next w)%nat → w_lists w' !! x = w_lists w !! x)
      ∧ (∀ x, x ≠ n0 → w_dicts w' !! x = w_dicts w !! x)
      ∧ (w_next w ≤ w_next w')%nat
      ∧ w_native w' = w_native w ∧ w_clock w' = w_clock w ∧ w_ticks w' = w_ticks w
      ∧ Forall (λ kv, (n0 < kv.2 < w_next w')%nat) dy'
      ∧ (λ kv, (kv.1, default [] (w_lists w' !! kv.2))) <$> dy'
        = (λ kv, (kv.1, default [] (L0 !! kv.2))) <$> items.
Proof.
  induction items as [|[k l] r IH]; intros memo w dy Hn HL Hdy Hnd Hlt Hmemo.
  - exists w, []. rewrite app_nil_r. repeat split; auto.
  - apply Forall_cons in Hlt as [Hl Hr]. simpl in Hl.
    assert (k ∉ dy.*1) as Hk.
    { intros Hin. apply NoDup_app in Hnd as (_ & Hdis & _).
      apply (Hdis k Hin). simpl. by left. }
    assert (NoDup ((dy ++ [(k, w_next w)]).*1 ++ r.*1) ∧
            ∀ l', NoDup ((dy ++ [(k, l')]).*1 ++ r.*1)) as [_ Hnd'].
    { split; intros; rewrite fmap_app, <- app_assoc; exact Hnd. }
    simpl. unfold deepcopy_list.
    destruct (memo_get l memo) as [l'|] eqn:Hm.
    + destruct (Hmemo l l' Hm) as [Hl' Hc].
      set (w1 := {| w_lists := w_lists w; w_dicts := <[n0 := dy ++ [(k, l')]]> (w_dicts w);
                    w_next := w_next w; w_native := w_native w;
                    w_clock := w_clock w; w_ticks := w_ticks w |}).
      destruct (IH memo w1 (dy ++ [(k, l')])) as (w' & dy' & Hrun & Hd' & Hl'' & Hdd & Hnx & Hna & Hcl & Hti & Hfr & Hco);
        simpl; auto.
      { apply lookup_insert_eq. }
      exists w', ((k, l') :: dy').
      split.
      { unfold mbind, mret, M_mbind, M_mret, M_bind, M_ret, read_dict, write_dict; simpl.
        rewrite Hdy; simpl. rewrite (dict_set_fresh _ _ _ Hk). exact Hrun. }
      split; [by rewrite Hd', <- app_assoc|].
      split; [exact Hl''|].
      split; [intros x Hx; rewrite (Hdd x Hx); simpl; by rewrite lookup_insert_ne|].
      split; [exact Hnx|].
      split; [exact Hna|]. split; [exact Hcl|]. split; [exact Hti|].
      split.
      { constructor; [simpl in *; lia | exact Hfr]. }
      rewrite !fmap_cons, Hco. f_equal. simpl. f_equal.
      rewrite Hl'' by (simpl; lia). simpl. by rewrite Hc.
    + set (xs := default [] (w_lists w !! l)).
      set (w1 := {| w_lists := <[w_next w := xs]> (w_lists w);
                    w_dicts := <[n0 := dy ++ [(k, w_next w)]]> (w_dicts w);
                    w_next := S (w_next w); w_native := w_native w;
                    w_clock := w_clock w; w_ticks := w_ticks w |}).
      assert (xs = default [] (L0 !! l)) as Hxs by (unfold xs; by rewrite HL).
      destruct (IH ((l, w_next w) :: memo) w1 (dy ++ [(k, w_next w)]))
        as (w' & dy' & Hrun & Hd' & Hl'' & Hdd & Hnx & Hna & Hcl & Hti & Hfr & Hco);
        simpl; auto.
      { intros x Hx. rewrite lookup_insert_ne by lia. by apply HL. }
      { apply lookup_insert_eq. }
      { intros x x'. destruct (Nat.eqb_spec x l) as [->|Hne].
        - intros [= <-]. split; [lia|]. rewrite lookup_insert_eq. by rewrite Hxs.
        - intros Hx. destruct (Hmemo x x' Hx) as [Hx' Hc].
          split; [lia|]. rewrite lookup_insert_ne by lia. exact Hc. }
      exists w', ((k, w_next w) :: dy').
      split.
      { unfold mbind, mret, M_mbind, M_mret, M_bind, M_ret, read_dict, write_dict,
          read_list, new_list; simpl.
        rewrite Hdy; simpl. rewrite (dict_set_fresh _ _ _ Hk). exact Hrun. }
      split; [by rewrite Hd', <- app_assoc|].
      split; [intros x Hx; rewrite Hl'' by (simpl; lia); simpl;
              by rewrite lookup_insert_ne by lia|].
      split; [intros x Hx; rewrite (Hdd x Hx); simpl; by rewrite lookup_insert_ne|].
      split; [simpl in Hnx; lia|].
      split; [exact Hna|]. split; [exact Hcl|]. split; [exact Hti|].
      split.
      { constructor; [simpl in *; lia | exact Hfr]. }
      rewrite !fmap_cons, Hco. f_equal. simpl. f_equal.
      rewrite Hl'' by (simpl; lia). simpl. rewrite lookup_insert_eq. simpl. exact Hxs.
Qed.

Lemma getstats_spec (w : world) :
  stats_wf w →
  ∃ w',
    getstats w = (Ok (w_next w), w')
    ∧ contents w' (w_next w) = contents w _stats
    ∧ frame_below (w_next w) w w'
    ∧ held_above (w_next w) (w_next w) w'
    ∧ (w_next w < w_next w')%nat
    ∧ w_native w' = w_native w ∧ w_clock w' = w_clock w ∧ w_ticks w' = w_ticks w.
Proof.
  intros (Hlt & Hnd & Hall).
  set (n0 := w_next w). set (items := default [] (w_dicts w !! _stats)) in *.
  set (w1 := {| w_lists := w_lists w; w_dicts := <[n0 := []]> (w_dicts w);
                w_next := S n0; w_native := w_native w;
                w_clock := w_clock w; w_ticks := w_ticks w |}).
  destruct (deepcopy_items_spec n0 (w_lists w) items [] w1 [])
    as (w' & dy' & Hrun & Hd' & Hl' & Hdd & Hnx & Hna & Hcl & Hti & Hfr & Hco);
    simpl; auto.
  { apply lookup_insert_eq. }
  { discriminate. }
  exists w'. split.
  { unfold getstats, deepcopy_dict.
    unfold mbind, mret, M_mbind, M_mret, M_bind, M_ret, read_dict, new_dict; simpl.
    fold n0 items w1. by rewrite Hrun. }
  split.
  { unfold contents. rewrite Hd'. simpl. exact Hco. }
  split.
  { split; intros x Hx.
    - rewrite Hl' by (simpl; lia). reflexivity.
    - rewrite Hdd by lia. simpl. by rewrite lookup_insert_ne by lia. }
  split.
  { split; [lia|]. split; [simpl in Hnx; lia|].
    rewrite Hd'. simpl. eapply Forall_impl; [exact Hfr|]. simpl. intros; lia. }
  simpl in Hnx. repeat split; auto; lia.
Qed.


Ltac frame_solve :=
  split; intros ? ?; simpl; rewrite ?lookup_insert_ne by lia; auto.

Lemma mutate_preserves (n0 r : loc) (w0 w : world) (m : mutation) :
  frame_below n0 w0 w → held_above n0 r w →
  frame_below n0 w0 (mutate r m w).2 ∧ held_above n0 r (mutate r m w).2.
Proof.
  intros [HL HD] (Hr & Hn & Hd).
  assert (∀ k l, dict_get k (default [] (w_dicts w !! r)) = Some l → (n0 ≤ l)%nat) as Hget.
  { intros k l Hk. apply dict_get_elem in Hk.
    rewrite Forall_forall in Hd. exact (Hd _ Hk). }
  assert (frame_below n0 w0 w ∧ held_above n0 r w) as Hsame by (by repeat split).
  destruct m; unfold mutate, getitem, list_iadd;
    unfold mbind, mret, M_mbind, M_mret, M_bind, M_ret, lift, raise,
      new_list, read_list, read_dict, write_list, write_dict; simpl.
  - (* r[k] = [x, ...] *)
    split; [frame_solve|]. repeat split; simpl; try lia.
    rewrite lookup_insert_eq. simpl. apply Forall_dict_set; [intros; simpl; lia | exact Hd].
  - (* r[k] = r[k'] *)
    destruct (dict_get k' _) as [l|] eqn:Hk; simpl; [|exact Hsame].
    split; [frame_solve|]. repeat split; simpl; try lia.
    rewrite lookup_insert_eq. simpl.
    apply Forall_dict_set; [intros; simpl; eauto | exact Hd].
  - (* del r[k] *)
    destruct (dict_get k _) as [l|] eqn:Hk; simpl; [|exact Hsame].
    split; [frame_solve|]. repeat split; simpl; try lia.
    rewrite lookup_insert_eq. simpl. by apply Forall_dict_del.
  - (* r.clear() *)
    split; [frame_solve|]. repeat split; simpl; try lia.
    rewrite lookup_insert_eq. constructor.
  - (* r[k][i] = v *)
    destruct (dict_get k _) as [l|] eqn:Hk; simpl; [|exact Hsame].
    apply Hget in Hk.
    case_bool_decide; simpl; [|exact Hsame].
    split; [frame_solve|]. repeat split; simpl; try lia. exact Hd.
  - (* r[k][i] += v *)
    destruct (dict_get k _) as [l|] eqn:Hk; simpl; [|exact Hsame].
    apply Hget in Hk.
    destruct (default [] (w_lists w !! l) !! i) as [x|]; simpl; [|exact Hsame].
    destruct (py_add x v); simpl; [|exact Hsame].
    split; [frame_solve|]. repeat split; simpl; try lia. exact Hd.
  - (* r[k].append(v) *)
    destruct (dict_get k _) as [l|] eqn:Hk; simpl; [|exact Hsame].
    apply Hget in Hk.
    split; [frame_solve|]. repeat split; simpl; try lia. exact Hd.
  - (* del r[k][:] *)
    destruct (dict_get k _) as [l|] eqn:Hk; simpl; [|exact Hsame].
    apply Hget in Hk.
    split; [frame_solve|]. repeat split; simpl; try lia. exact Hd.
Qed.

Lemma mutations_preserve (n0 r : loc) (w0 : world) (ms : list mutation) :
  ∀ w, frame_below n0 w0 w → held_above n0 r w →
       frame_below n0 w0 (mutations r ms w) ∧ held_above n0 r (mutations r ms w).
Proof.
  induction ms as [|m ms IH]; intros w Hf Hh; [by split|].
  destruct (mutate_preserves n0 r w0 w m Hf Hh) as [Hf' Hh'].
  exact (IH _ Hf' Hh').
Qed.

Lemma frame_below_wf (w0 w : world) :
  stats_wf w0 → frame_below (w_next w0) w0 w → (w_next w0 ≤ w_next w)%nat →
  stats_wf w ∧ contents w _stats = contents w0 _stats.
Proof.
  intros (Hlt & Hnd & Hall) [HL HD] Hn.
  assert (w_dicts w !! _stats = w_dicts w0 !! _stats) as Hd by (by apply HD).
  split.
  - unfold stats_wf. rewrite Hd. split; [lia|]. split; [exact Hnd|].
    eapply Forall_impl; [exact Hall|]. simpl. intros; lia.
  - unfold contents. rewrite Hd.
    apply Forall_fmap_ext_1. eapply Forall_impl; [exact Hall|].
    simpl. intros [k l] Hl. simpl in *. by rewrite HL.
Qed.

(** C4: [getstats] returns a new mapping holding what the table holds;
    whatever sequence of mutations a caller applies to that mapping and
    to the lists in it, the table holds what it held, and a later
    [getstats] returns the same contents as one made with no mutation
    in between. *)
Theorem getstats_is_independent_copy (w : world) (ms : list mutation) :
  stats_wf w →
  ∃ r w1,
    getstats w = (Ok r, w1)
    ∧ contents w1 r = contents w _stats
    ∧ contents (mutations r ms w1) _stats = contents w _stats
    ∧ ∃ r' w3 r'' w3',
        getstats (mutations r ms w1) = (Ok r', w3)
        ∧ getstats w1 = (Ok r'', w3')
        ∧ contents w3 r' = contents w3' r''
        ∧ contents w3 r' = contents w _stats.
Proof.
  intros Hwf.
  destruct (getstats_spec w Hwf) as (w1 & Hget & Hco & Hfr & Hheld & Hn & _).
  exists (w_next w), w1. split; [exact Hget|]. split; [exact Hco|].
  destruct (mutations_preserve (w_next w) (w_next w) w ms w1 Hfr Hheld) as [Hfr2 Hheld2].
  destruct (frame_below_wf w (mutations (w_next w) ms w1) Hwf Hfr2) as [Hwf2 Hco2];
    [apply Hheld2|].
  destruct (frame_below_wf w w1 Hwf Hfr) as [Hwf1 Hco1]; [lia|].
  split; [exact Hco2|].
  destruct (getstats_spec _ Hwf2) as (w3 & Hget3 & Hco3 & _).
  destruct (getstats_spec _ Hwf1) as (w3' & Hget3' & Hco3' & _).
  eexists _, w3, _, w3'. split; [exact Hget3|]. split; [exact Hget3'|].
  rewrite Hco3, Hco3', Hco2, Hco1. by split.
Qed.

(** ** The table's invariant *)

Lemma dict_set_keys (k : string) (v : loc) (d : list (string * loc)) :
  (dict_set k v d).*1 = if bool_decide (k ∈ d.*1) then d.*1 else d.*1 ++ [k].
Proof.
  induction d as [|[k' v'] r IH]; csimpl; [reflexivity|].
  destruct (String.eqb_spec k k') as [->|Hne]; csimpl.
  - rewrite bool_decide_eq_true_2 by (by left). reflexivity.
  - rewrite IH. case_bool_decide as Hin.
    + rewrite bool_decide_eq_true_2 by (by right). reflexivity.
    + rewrite bool_decide_eq_false_2; [reflexivity|].
      intros [?|?]%elem_of_cons; congruence.
Qed.

Lemma NoDup_dict_set (k : string) (v : loc) (d : list (string * loc)) :
  NoDup d.*1 → NoDup (dict_set k v d).*1.
Proof.
  intros Hnd. rewrite dict_set_keys. case_bool_decide as Hin; [exact Hnd|].
  apply NoDup_app. split; [exact Hnd|]. split; [|apply NoDup_singleton].
  intros x Hx ->%list_elem_of_singleton. contradiction.
Qed.

Lemma stats_inv_module_world (clock : nat → float) : stats_inv (module_world clock).
Proof.
  split.
  - unfold stats_wf. simpl. rewrite lookup_singleton_eq. simpl.
    repeat split; [unfold _stats; lia | constructor | constructor].
  - intros name l. simpl. rewrite lookup_singleton_eq. discriminate.
Qed.

Lemma stats_shaped_entry_ok (w : world) (name : string) :
  stats_shaped w → stat_entry_ok w name.
Proof.
  intros Hs. unfold stat_entry_ok, stat_of.
  destruct (dict_get name _) as [l|] eqn:Hget; [|exact I].
  destruct (Hs name l Hget) as (c & t & ->). right. eauto.
Qed.

(** The invariant of the table survives a [with profile_range(...)]
    statement whose block completes normally and keeps it. *)
Lemma with_range_preserves_inv
    (b : binding) (name : string) (color : option Z) (payload : pyval)
    (category : option Z) (A : Type) (body : M A) (w : world) (a : A) (w2 : world) :
  let g := profile_range b name color payload category in
  body (before_yield g w).2 = (Ok a, w2) →
  stats_inv w2 →
  ∃ w3, with_ g body w = (Ok a, w3) ∧ stats_inv w3.
Proof.
  intros g Hbody [(Hlt & Hnd & Hall) Hshape].
  destruct (profile_range_enter b name color payload category w) as (w1 & Hent & _).
  fold g in Hent. rewrite Hent in Hbody. simpl in Hbody.
  destruct (stat_of w2 name) as [xs|] eqn:Hstat.
  - assert (∃ l, dict_get name (default [] (w_dicts w2 !! _stats)) = Some l) as [l Hget].
    { unfold stat_of in Hstat. destruct (dict_get name _); [eauto | discriminate]. }
    destruct (Hshape name l Hget) as (count & total & Hl).
    assert (xs = [VInt count; VFloat total]) as ->.
    { unfold stat_of in Hstat. rewrite Hget, Hl in Hstat. congruence. }
    destruct (after_yield_increments b name color payload category
                (w_clock w (w_ticks w)) w2 count total Hstat)
      as (w3 & l' & H3 & Hget' & Hd & Hl3 & Hn3 & _).
    exists w3. split; [exact (with_normal g body w w1 w2 w3 _ a Hent Hbody H3)|].
    split.
    + unfold stats_wf. rewrite Hd, Hn3. by repeat split.
    + intros other lo. rewrite Hd, Hl3. intros Ho.
      destruct (decide (lo = l')) as [->|Hne].
      * rewrite lookup_insert_eq. eauto.
      * rewrite lookup_insert_ne by done. exact (Hshape other lo Ho).
  - destruct (after_yield_creates b name color payload category
                (w_clock w (w_ticks w)) w2 (or_introl Hstat))
      as (w3 & H3 & Hs3 & Hother & Hl3 & Hn3 & _ & _ & _ & Hd).
    exists w3. split; [exact (with_normal g body w w1 w2 w3 _ a Hent Hbody H3)|].
    split.
    + unfold stats_wf. rewrite Hd, Hn3, lookup_insert_eq. simpl.
      split; [lia|]. split; [by apply NoDup_dict_set|].
      apply Forall_dict_set; [intros; simpl; lia|].
      eapply Forall_impl; [exact Hall|]. simpl. intros; lia.
    + intros other lo. rewrite Hd, Hl3, lookup_insert_eq. simpl. intros Ho.
      destruct (decide (other = name)) as [->|Hne].
      * rewrite dict_get_set_eq in Ho. injection Ho as <-.
        rewrite lookup_insert_eq. eauto.
      * rewrite dict_get_set_ne in Ho by done.
        assert (lo < w_next w2)%nat as Hlo.
        { apply dict_get_elem in Ho. rewrite Forall_forall in Hall. exact (Hall _ Ho). }
        rewrite lookup_insert_ne by lia. exact (Hshape other lo Ho).
Qed.

Lemma sample_world_inv : stats_inv sample_world.
Proof.
  assert (default [] (w_dicts sample_world !! _stats) = [("x"%string, 1%nat)]) as Hd
    by (vm_compute; reflexivity).
  assert (w_lists sample_world !! 1%nat = Some [VInt 3; VFloat 48]) as Hl
    by (vm_compute; reflexivity).
  assert (w_next sample_world = 2%nat) as Hn by (vm_compute; reflexivity).
  split.
  - unfold stats_wf. rewrite Hd, Hn. unfold _stats. simpl.
    split; [lia|]. split; [apply NoDup_singleton | repeat constructor].
  - intros name l. rewrite Hd. simpl.
    destruct (String.eqb name "x"); [|discriminate].
    intros [= <-]. rewrite Hl. eauto.
Qed.


(** ** The snapshot on the sample world *)

Lemma getstats_is_independent_copy_witness :
  ∃ r w1,
    getstats sample_world = (Ok r, w1)
    ∧ contents w1 r = [("x"%string, [VInt 3; VFloat 48])]
    ∧ contents (mutations r sample_mutations w1) r = []
    ∧ contents (mutations r sample_mutations w1) _stats
      = [("x"%string, [VInt 3; VFloat 48])]
    ∧ ∃ r' w3,
        getstats (mutations r sample_mutations w1) = (Ok r', w3)
        ∧ contents w3 r' = [("x"%string, [VInt 3; VFloat 48])].
Proof.
  destruct (getstats_is_independent_copy sample_world sample_mutations
              (proj1 sample_world_inv))
    as (r & w1 & Hget & Hco & Hco2 & r' & w3 & r'' & w3' & Hget3 & _ & _ & Hco3).
  assert (contents sample_world _stats = [("x"%string, [VInt 3; VFloat 48])]) as Hc
    by (vm_compute; reflexivity).
  exists r, w1. split; [exact Hget|]. rewrite Hco, Hco2, Hc.
  split; [reflexivity|].
  split.
  { assert (getstats sample_world = (Ok r, w1)) as Hget' by exact Hget.
    vm_compute in Hget'. injection Hget' as <- <-. vm_compute. reflexivity. }
  split; [reflexivity|].
  exists r', w3. split; [exact Hget3|]. by rewrite Hco3.
Defined.

Example mutation_of_the_table_itself_shows :
  contents (mutations _stats [ListIAdd "x" 0 (VInt 7)] sample_world) _stats
  = [("x"%string, [VInt 10; VFloat 48])].
Proof. vm_compute. reflexivity. Qed.

Example snapshot_is_changed_by_its_holder :
  let '(r, w1) := getstats sample_world in
  match r with
  | Ok r =>
      contents (mutations r [ListIAdd "x" 0 (VInt 7); SetItem "y" [VInt 0]] w1) r
      = [("x"%string, [VInt 10; VFloat 48]); ("y"%string, [VInt 0])]
  | Raise _ => False
  end.
Proof. vm_compute. reflexivity. Qed.

(** ** Scoped ranges on the sample world *)

Lemma range_pop_once_per_push_witness :
  ∃ w3 pushes pops,
    with_ (profile_range Bound "x" (Some 0xffff0000) VNone (Some 7)) (mret 5)
      (module_world sample_clock) = (Ok 5, w3)
    ∧ pushes = [nvtxRangePushEx
                  (Codec._create_event (Some "x"%string) (Some 0xffff0000) VNone None)]
    ∧ w_native w3 = pushes ++ pops
    ∧ count_push pushes = count_pop pops
    ∧ count_push pushes = 1%nat.
Proof.
  destruct (proj1 (range_pop_once_per_push Bound "x" (Some 0xffff0000) VNone (Some 7)
                     Z (mret 5) (module_world sample_clock))
              5 _ eq_refl)
    as (w3 & pushes & pops & Hwith & Hpush & Hpop & Hbal & _ & _ & Hone).
  { vm_compute. exact I. }
  assert (pushes = [nvtxRangePushEx
                      (Codec._create_event (Some "x"%string) (Some 0xffff0000) VNone None)])
    as Hp by (symmetry; exact Hpush).
  exists w3, pushes, pops.
  split; [exact Hwith|]. split; [exact Hp|].
  split; [rewrite Hpop, Hp; reflexivity|].
  split; [exact Hbal | exact (Hone eq_refl)].
Defined.

Example profiled_returns_the_result_and_records :
  let r := profiled Bound "f" (Some 7) None VNone (time;; mret 42)
             (module_world sample_clock) in
  r.1 = Ok 42
  ∧ w_native r.2 = [nvtxRangePushA (Some "f"%string); nvtxRangePop]
  ∧ stat_of r.2 "f" = Some [VInt 1; VFloat 4].
Proof. vm_compute. repeat split. Qed.

Example profiled_lets_the_exception_through :
  let r := profiled Bound "f" None None VNone (raise (UserError "boom") : M Z)
             (module_world sample_clock) in
  r.1 = Raise (UserError "boom")
  ∧ w_native r.2 = [nvtxRangePushA (Some "f"%string)]
  ∧ stat_of r.2 "f" = None.
Proof. vm_compute. repeat split. Qed.

Example nvtx_only_range_skips_pop_on_exception :
  let r := with_ (profile_range_nvtx_only Bound "g" None VNone None)
             (raise (UserError "boom") : M unit) (module_world sample_clock) in
  r.1 = Raise (UserError "boom")
  ∧ w_native r.2 = [nvtxRangePushA (Some "g"%string)].
Proof. vm_compute. repeat split. Qed.

(** * Further properties of the module *)

(** ** Encoding and decoding *)

Lemma digits2_pos_bounds (m : positive) :
  2 ^ (Z.pos (digits2_pos m) - 1) ≤ Z.pos m < 2 ^ Z.pos (digits2_pos m).
Proof.
  induction m as [p IH|p IH|]; simpl digits2_pos.
  - rewrite Pos2Z.inj_succ.
    replace (Z.succ (Z.pos (digits2_pos p)) - 1) with (Z.succ (Z.pos (digits2_pos p) - 1)) by lia.
    rewrite !Z.pow_succ_r by lia. lia.
  - rewrite Pos2Z.inj_succ.
    replace (Z.succ (Z.pos (digits2_pos p)) - 1) with (Z.succ (Z.pos (digits2_pos p) - 1)) by lia.
    rewrite !Z.pow_succ_r by lia. lia.
  - simpl. lia.
Qed.

(** A valid finite binary64 is subnormal (exponent -1074, mantissa below
    2^52) or normal (53-bit mantissa, exponent in [-1074, 971]). *)
Lemma valid_binary64_cases (s : bool) (m : positive) (e : Z) :
  FloatAxioms.valid_binary (S754_finite s m e) = true →
  (e = -1074 ∧ Z.pos m < 2 ^ 52)
  ∨ (-1074 ≤ e ≤ 971 ∧ 2 ^ 52 ≤ Z.pos m < 2 ^ 53).
Proof.
  unfold FloatAxioms.valid_binary, SpecFloat.valid_binary, bounded, canonical_mantissa, fexp, SpecFloat.emin, prec, emax.
  intros [Hc He]%andb_prop. apply Z.eqb_eq in Hc. apply Z.leb_le in He.
  pose proof (digits2_pos_bounds m) as Hd.
  set (d := Z.pos (digits2_pos m)) in *.
  assert (0 < d) as Hd0 by (unfold d; lia).
  destruct (Z.max_spec (d + e - 53) (3 - 1024 - 53)) as [[Hlt Hmax]|[Hge Hmax]];
    rewrite Hmax in Hc.
  - (* max is emin *)
    left. split; [lia|].
    assert (d ≤ 52) as Hd52 by lia.
    destruct Hd as [_ Hd]. eapply Z.lt_le_trans; [exact Hd|].
    apply Z.pow_le_mono_r; lia.
  - right. assert (d = 53) as Hd53 by lia. rewrite Hd53 in Hd.
    change (53 - 1) with 52 in Hd. split; lia.
Qed.

Lemma double_bits_roundtrip (f : float) :
  Codec.double_of_bits (Codec.bits_of_double f) = f.
Proof.
  rewrite <- (SF2Prim_Prim2SF f) at 2.
  pose proof (Prim2SF_valid f) as Hv.
  unfold Codec.bits_of_double, Codec.double_of_bits.
  destruct (Prim2SF f) as [s|s| |s m e].
  - destruct s; vm_compute; reflexivity.
  - destruct s; vm_compute; reflexivity.
  - vm_compute; reflexivity.
  - f_equal.
    apply valid_binary64_cases in Hv.
    set (sg := if s then 2 ^ 63 else 0).
    assert (sg = 0 ∨ sg = 2 ^ 63) as Hsg by (unfold sg; destruct s; auto).
    change (2 ^ 52 - 1) with (Z.ones 52). change 2047 with (Z.ones 11).
    rewrite !Z.land_ones by lia. rewrite Z.shiftr_div_pow2 by lia.
    destruct Hv as [[-> Hm]|[He Hm]].
    + (* subnormal *)
      assert ((Z.pos m <? 2 ^ 52) = true) as -> by (apply Z.ltb_lt; exact Hm).
      assert (Z.testbit (sg + Z.pos m) 63 = s) as ->.
      { destruct s; unfold sg.
        - apply Z.testbit_true; [lia|].
          replace ((2 ^ 63 + Z.pos m) / 2 ^ 63) with 1; [reflexivity|].
          apply Z.div_unique with (r := Z.pos m); lia.
        - apply Z.testbit_false; [lia|].
          rewrite Z.div_small by lia. reflexivity. }
      assert (((sg + Z.pos m) / 2 ^ 52) mod 2 ^ 11 = 0) as ->.
      { destruct Hsg as [-> | ->].
        - rewrite Z.div_small by lia. reflexivity.
        - replace ((2 ^ 63 + Z.pos m) / 2 ^ 52) with (2 ^ 11); [reflexivity|].
          apply Z.div_unique with (r := Z.pos m); lia. }
      assert ((sg + Z.pos m) mod 2 ^ 52 = Z.pos m) as ->.
      { destruct Hsg as [-> | ->].
        - apply Z.mod_small; lia.
        - symmetry. apply Z.mod_unique with (q := 2 ^ 11); lia. }
      simpl. reflexivity.
    + assert ((Z.pos m <? 2 ^ 52) = false) as -> by (apply Z.ltb_ge; lia).
      set (E := e + 1075). set (mm := Z.pos m - 2 ^ 52).
      assert (1 ≤ E ≤ 2046) as HE by (unfold E; lia).
      assert (0 ≤ mm < 2 ^ 52) as Hmm by (unfold mm; lia).
      assert (Z.testbit (sg + (E * 2 ^ 52 + mm)) 63 = s) as ->.
      { destruct s; unfold sg.
        - apply Z.testbit_true; [lia|].
          replace ((2 ^ 63 + (E * 2 ^ 52 + mm)) / 2 ^ 63) with 1; [reflexivity|].
          apply Z.div_unique with (r := E * 2 ^ 52 + mm); lia.
        - apply Z.testbit_false; [lia|].
          rewrite Z.div_small by lia. reflexivity. }
      assert ((sg + (E * 2 ^ 52 + mm)) / 2 ^ 52 = sg / 2 ^ 52 + E) as ->.
      { symmetry. apply Z.div_unique with (r := mm); [lia|].
        destruct Hsg as [-> | ->]; [rewrite Z.div_small by lia; lia|].
        change (2 ^ 63 / 2 ^ 52) with (2 ^ 11). lia. }
      assert ((sg / 2 ^ 52 + E) mod 2 ^ 11 = E) as ->.
      { destruct Hsg as [-> | ->].
        - rewrite Z.div_small by lia. apply Z.mod_small; lia.
        - change (2 ^ 63 / 2 ^ 52) with (2 ^ 11).
          symmetry. apply Z.mod_unique with (q := 1); lia. }
      assert ((sg + (E * 2 ^ 52 + mm)) mod 2 ^ 52 = mm) as ->.
      { symmetry. apply Z.mod_unique with (q := sg / 2 ^ 52 + E); [lia|].
        destruct Hsg as [-> | ->]; [rewrite Z.div_small by lia; lia|].
        change (2 ^ 63 / 2 ^ 52) with (2 ^ 11). lia. }
      change (Z.ones 11) with 2047.
      assert ((E =? 0) = false) as -> by (apply Z.eqb_neq; lia).
      assert ((E =? 2047) = false) as -> by (apply Z.eqb_neq; lia).
      unfold mm, E.
      replace (Z.pos m - 2 ^ 52 + 2 ^ 52) with (Z.pos m) by lia.
      replace (e + 1075 - 1075) with e by lia.
      rewrite Pos2Z.id. reflexivity.
Qed.

Lemma c_uint_in_range (w v : Z) : 0 ≤ v < 2 ^ w → Codec.c_uint w v = v.
Proof. intros H. unfold Codec.c_uint. apply Z.mod_small. exact H. Qed.

Lemma create_event_color_fields
    (message : option string) (color : option Z) (payload : pyval)
    (category : option Z) :
  let ea := Codec._create_event message color payload category in
  match color with
  | Some c => Codec._color_type ea = 1 ∧ Codec._color ea = Codec.c_uint 32 c
  | None => Codec._color_type ea = 0 ∧ Codec._color ea = 0
  end.
Proof. destruct message, color, payload, category; split; reflexivity. Qed.

Lemma create_event_category_field
    (message : option string) (color : option Z) (payload : pyval)
    (category : option Z) :
  Codec.category (Codec._create_event message color payload category)
  = match category with Some c => Codec.c_uint 32 c | None => 0 end.
Proof. destruct message, color, payload, category; reflexivity. Qed.

Lemma create_event_message_fields
    (message : option string) (color : option Z) (payload : pyval)
    (category : option Z) :
  let ea := Codec._create_event message color payload category in
  match message with
  | Some m => Codec._message_type ea = 1 ∧ Codec._message ea = Codec.narrow m
  | None => Codec._message_type ea = 0 ∧ Codec._message ea = Codec.NULL
  end.
Proof. destruct message, color, payload, category; split; reflexivity. Qed.

(** X1: a color passed to [_create_event] is stored reduced to 32 bits
    with kind ARGB, and the [color] property gives the hexadecimal text
    of what is stored, which is the color itself when it fits 32 bits;
    with no color the property gives [None].  Each of the eight named
    colors fits 32 bits, has alpha 255, and is stored unchanged. *)
Theorem color_roundtrip
    (message : option string) (payload : pyval) (category : option Z) :
  (∀ color,
     let ea := Codec._create_event message (Some color) payload category in
     Codec._color_type ea = Codec._NVTX_COLOR_ARGB
     ∧ Codec._color ea = color mod 2 ^ 32
     ∧ Codec.color ea = Ok (VStr (Codec.hex (color mod 2 ^ 32)))
     ∧ (0 ≤ color < 2 ^ 32 → Codec.color ea = Ok (VStr (Codec.hex color))))
  ∧ Codec.color (Codec._create_event message None payload category) = Ok VNone
  ∧ (∀ name color, (name, color) ∈ colors.named →
       0 ≤ color < 2 ^ 32
       ∧ color / 2 ^ 24 = 255
       ∧ Codec._color (Codec._create_event message (Some color) payload category)
         = color).
Proof.
  split; [|split].
  - intros color ea.
    pose proof (create_event_color_fields message (Some color) payload category)
      as [Ht Hc]. fold ea in Ht, Hc.
    assert (Codec.color ea = Ok (VStr (Codec.hex (color mod 2 ^ 32)))) as Hacc
      by (unfold Codec.color; rewrite Ht, Hc; reflexivity).
    split; [exact Ht|]. split; [exact Hc|]. split; [exact Hacc|].
    intros Hr. rewrite Hacc. by rewrite Z.mod_small.
  - pose proof (create_event_color_fields message None payload category) as [Ht _].
    unfold Codec.color. cbv zeta in Ht. rewrite Ht. reflexivity.
  - intros name color Hin.
    assert (0 ≤ color < 2 ^ 32 ∧ color / 2 ^ 24 = 255) as [Hr Ha].
    { unfold colors.named in Hin.
      repeat (apply elem_of_cons in Hin as [[= _ ->]|Hin];
              [split; [split; [vm_compute; discriminate | vm_compute; reflexivity]
                      | vm_compute; reflexivity]|]).
      inversion Hin. }
    split; [exact Hr|]. split; [exact Ha|].
    pose proof (create_event_color_fields message (Some color) payload category)
      as [_ Hc]. cbv zeta in Hc. rewrite Hc. by apply c_uint_in_range.
Qed.

(** X2: a category passed to [_create_event] is stored reduced to 32
    bits, unchanged when it fits; with no category the field is 0, so
    the record for category 0 is the record for no category. *)
Theorem category_roundtrip
    (message : option string) (color : option Z) (payload : pyval) :
  (∀ category,
     Codec.category (Codec._create_event message color payload (Some category))
     = category mod 2 ^ 32)
  ∧ (∀ category, 0 ≤ category < 2 ^ 32 →
       Codec.category (Codec._create_event message color payload (Some category))
       = category)
  ∧ Codec.category (Codec._create_event message color payload None) = 0
  ∧ Codec._create_event message color payload (Some 0)
    = Codec._create_event message color payload None.
Proof.
  split; [|split; [|split]].
  - intros category. apply create_event_category_field.
  - intros category Hr. rewrite create_event_category_field.
    by apply c_uint_in_range.
  - apply create_event_category_field.
  - destruct message, color, payload; reflexivity.
Qed.

Lemma c_str_fixed (m : string) :
  Codec.c_str m = m ↔ ¬ In Ascii.zero (String.list_ascii_of_string m).
Proof.
  induction m as [|c r IH]; simpl.
  - split; [intros _ [] | reflexivity].
  - destruct (Ascii.eqb_spec c Ascii.zero) as [->|Hne].
    + split; [discriminate | intros H; exfalso; apply H; by left].
    + split.
      * intros [= Hr] [Hc|Hin]; [congruence | by apply IH in Hr].
      * intros H. f_equal. apply IH. intros Hin. apply H. by right.
Qed.

Lemma c_str_length (m : string) :
  (String.length (Codec.c_str m) ≤ String.length m)%nat.
Proof.
  induction m as [|c r IH]; simpl; [lia|].
  destruct (Ascii.eqb c Ascii.zero); simpl; lia.
Qed.

Lemma c_str_no_nul (m : string) :
  ¬ In Ascii.zero (String.list_ascii_of_string (Codec.c_str m)).
Proof.
  induction m as [|c r IH]; simpl; [tauto|].
  destruct (Ascii.eqb_spec c Ascii.zero) as [->|Hne]; simpl; [tauto|].
  intros [Hc|Hin]; [congruence | contradiction].
Qed.

Lemma c_str_prefix (m : string) : String.prefix (Codec.c_str m) m = true.
Proof.
  induction m as [|c r IH]; simpl; [reflexivity|].
  destruct (Ascii.eqb_spec c Ascii.zero) as [->|Hne]; simpl; [reflexivity|].
  destruct (Ascii.ascii_dec c c); [exact IH | contradiction].
Qed.

(** X3: the [message] property of an encoded record gives the message
    up to its first NUL byte: a prefix of the message with no NUL in
    it, the message itself when it holds no NUL, and strictly shorter
    when it holds one; with no message the property gives [None]. *)
Theorem message_roundtrip
    {memory : Type} (wide_read_of_narrow : memory → string → outcome pyval)
    (narrow_read_of_wide : string → pyval) (mem : memory)
    (color : option Z) (payload : pyval) (category : option Z) :
  let message := Codec.message wide_read_of_narrow narrow_read_of_wide mem in
  (∀ m,
     message (Codec._create_event (Some m) color payload category)
       = Ok (VBytes (Codec.c_str m))
     ∧ String.prefix (Codec.c_str m) m = true
     ∧ ¬ In Ascii.zero (String.list_ascii_of_string (Codec.c_str m))
     ∧ (¬ In Ascii.zero (String.list_ascii_of_string m) →
          message (Codec._create_event (Some m) color payload category)
          = Ok (VBytes m))
     ∧ (In Ascii.zero (String.list_ascii_of_string m) →
          (String.length (Codec.c_str m) < String.length m)%nat))
  ∧ message (Codec._create_event None color payload category) = Ok VNone.
Proof.
  intros message. split.
  - intros m.
    pose proof (create_event_message_fields (Some m) color payload category)
      as [Ht Hm]. cbv zeta in Ht, Hm.
    assert (message (Codec._create_event (Some m) color payload category)
            = Ok (VBytes (Codec.c_str m))) as Hacc
      by (unfold message, Codec.message; rewrite Ht, Hm; reflexivity).
    split; [exact Hacc|]. split; [apply c_str_prefix|]. split; [apply c_str_no_nul|].
    split.
    + intros Hn. rewrite Hacc. by apply c_str_fixed in Hn as ->.
    + intros Hin.
      destruct (Nat.eq_dec (String.length (Codec.c_str m)) (String.length m)) as [He|Hne].
      * exfalso. revert Hin. apply c_str_fixed.
        clear -He. induction m as [|c r IH]; simpl in *; [reflexivity|].
        destruct (Ascii.eqb c Ascii.zero); simpl in *; [discriminate|].
        f_equal. apply IH. lia.
      * pose proof (c_str_length m). lia.
  - pose proof (create_event_message_fields None color payload category) as [Ht _].
    cbv zeta in Ht. unfold message, Codec.message. rewrite Ht. reflexivity.
Qed.

(** X4: an integral payload reads back through the [payload] property
    as the integer reduced to signed 64 bits, which is the payload
    itself when it fits; a [bool] reads back as the integer 0 or 1. *)
Theorem payload_integral_roundtrip
    (message : option string) (color : option Z) (payload : pyval)
    (category : option Z) (z : Z) :
  Codec.as_Integral payload = Some z →
  Codec.payload (Codec._create_event message color payload category)
    = Ok (VInt (Codec.c_int 64 z))
  ∧ (- 2 ^ 63 ≤ z < 2 ^ 63 →
       Codec.payload (Codec._create_event message color payload category)
       = Ok (VInt z)).
Proof.
  intros Hz.
  pose proof (create_event_payload_type_cases message color payload category) as H.
  cbv zeta in H.
  assert (Codec.payload (Codec._create_event message color payload category)
          = Ok (VInt (Codec.c_int 64 z))) as Hacc.
  { unfold Codec.payload.
    destruct payload; try discriminate; simpl in Hz; simplify_eq;
      destruct H as [-> ->]; simpl;
      unfold Codec.ll_value, Codec.set_ll_value; simpl;
      by rewrite c_int_c_uint by lia. }
  split; [exact Hacc|]. intros Hr. rewrite Hacc.
  by rewrite (c_int_in_range 64) by (change (64 - 1) with 63; lia).
Qed.

(** X5: every float payload, the infinities, signed zeros and NaN
    included, reads back through the [payload] property unchanged. *)
Theorem payload_float_roundtrip
    (message : option string) (color : option Z) (f : float) (category : option Z) :
  Codec.payload (Codec._create_event message color (VFloat f) category)
  = Ok (VFloat f).
Proof.
  pose proof (create_event_payload_type_cases message color (VFloat f) category)
    as [Ht Hp]. cbv zeta in Ht, Hp.
  unfold Codec.payload. rewrite Ht, Hp. simpl.
  unfold Codec.d_value, Codec.set_d_value. simpl.
  by rewrite double_bits_roundtrip.
Qed.

Ltac kind_cases :=
  repeat match goal with
         | |- context [?a =? ?b] => destruct (Z.eqb_spec a b)
         end.

Lemma payload_outcome (self : Codec._EventAttributes_v1) :
  (0 ≤ Codec._payload_type self ≤ 3 ∧ ∃ v, Codec.payload self = Ok v)
  ∨ (¬ 0 ≤ Codec._payload_type self ≤ 3
     ∧ Codec.payload self = Raise (AttributeError "Payload of unknown type")).
Proof.
  unfold Codec.payload, Codec._NVTX_PAYLOAD_UNKNOWN,
    Codec._NVTX_PAYLOAD_TYPE_UNSIGNED_INT64, Codec._NVTX_PAYLOAD_TYPE_INT64,
    Codec._NVTX_PAYLOAD_TYPE_DOUBLE.
  kind_cases; try (left; split; [lia | eauto]). right. split; [lia | reflexivity].
Qed.

Lemma color_outcome (self : Codec._EventAttributes_v1) :
  (0 ≤ Codec._color_type self ≤ 1 ∧ ∃ v, Codec.color self = Ok v)
  ∨ (¬ 0 ≤ Codec._color_type self ≤ 1
     ∧ Codec.color self = Raise (AttributeError "Color of unknown type")).
Proof.
  unfold Codec.color, Codec._NVTX_COLOR_UNKNOWN, Codec._NVTX_COLOR_ARGB.
  kind_cases; try (left; split; [lia | eauto]). right. split; [lia | reflexivity].
Qed.

Lemma message_outcome {memory : Type} (wr : memory → string → outcome pyval)
    (nr : string → pyval) (mem : memory) (self : Codec._EventAttributes_v1) :
  (0 ≤ Codec._message_type self ≤ 1 ∧ ∃ v, Codec.message wr nr mem self = Ok v)
  ∨ (Codec._message_type self = 2
     ∧ Codec.message wr nr mem self = Codec.unicode wr mem (Codec._message self))
  ∨ (¬ 0 ≤ Codec._message_type self ≤ 2
     ∧ Codec.message wr nr mem self = Raise (AttributeError "Message of unknown type")).
Proof.
  unfold Codec.message, Codec._NVTX_MESSAGE_UNKNOWN, Codec._NVTX_MESSAGE_TYPE_ASCII,
    Codec._NVTX_MESSAGE_TYPE_UNICODE.
  kind_cases; try (left; split; [lia | eauto]).
  - right. left. split; [assumption | reflexivity].
  - right. right. split; [lia | reflexivity].
Qed.

Lemma str_after_message {memory : Type} (wr : memory → string → outcome pyval)
    (nr : string → pyval) (mem : memory) (format_value : pyval → string)
    (self : Codec._EventAttributes_v1) :
  let str := Printing.__str__ wr nr mem format_value self in
  match Codec.message wr nr mem self with
  | Raise e => str = Raise e
  | Ok _ =>
      match Codec.color self with
      | Raise e => str = Raise e
      | Ok _ =>
          match Codec.payload self with
          | Raise e => str = Raise e
          | Ok _ => ∃ s, str = Ok s
          end
      end
  end.
Proof.
  cbv zeta. unfold Printing.__str__, Printing.attrs.
  cbn [Printing.items Printing.getattr].
  destruct (Codec.message wr nr mem self); [|reflexivity].
  destruct (Codec.color self); [|reflexivity].
  destruct (Codec.payload self); [|reflexivity].
  eauto.
Qed.

(** X7: [__str__] reads the message, color and payload properties in
    that order and raises what the first failing one raises.  It
    returns a text exactly when the message property returns and the
    color and payload kinds are known.  The message property returns
    at the kinds none and ASCII; at the kind UNICODE it is the reading
    of [_message.unicode], which on a pointer to wide text or a null
    pointer returns and on a narrow buffer may raise; at any other
    kind it raises [AttributeError]. *)
Theorem str_raises_on_unknown_kind
    {memory : Type} (wide_read_of_narrow : memory → string → outcome pyval)
    (narrow_read_of_wide : string → pyval) (mem : memory)
    (format_value : pyval → string) (self : Codec._EventAttributes_v1) :
  let str := Printing.__str__ wide_read_of_narrow narrow_read_of_wide mem format_value in
  let message := Codec.message wide_read_of_narrow narrow_read_of_wide mem in
  let unicode := Codec.unicode wide_read_of_narrow mem in
  let message_returns := ∃ v, message self = Ok v in
  let color_known := 0 ≤ Codec._color_type self ≤ 1 in
  let payload_known := 0 ≤ Codec._payload_type self ≤ 3 in
  ((∃ s, str self = Ok s) ↔ message_returns ∧ color_known ∧ payload_known)
  ∧ (∀ e, message self = Raise e → str self = Raise e)
  ∧ (message_returns → ¬ color_known →
       str self = Raise (AttributeError "Color of unknown type"))
  ∧ (message_returns → color_known → ¬ payload_known →
       str self = Raise (AttributeError "Payload of unknown type"))
  ∧ (0 ≤ Codec._message_type self ≤ 1 → message_returns)
  ∧ (Codec._message_type self = 2 →
       message self = unicode (Codec._message self)
       ∧ (Codec._message self = Codec.NULL → message_returns)
       ∧ (∀ t, Codec._message self = Codec.wide t → message_returns)
       ∧ (∀ s e, Codec._message self = Codec.narrow s →
                 wide_read_of_narrow mem s = Raise e → str self = Raise e))
  ∧ (¬ 0 ≤ Codec._message_type self ≤ 2 →
       str self = Raise (AttributeError "Message of unknown type")).
Proof.
  cbv zeta.
  pose proof (str_after_message wide_read_of_narrow narrow_read_of_wide mem
                format_value self) as Hstr. cbv zeta in Hstr.
  pose proof (message_outcome wide_read_of_narrow narrow_read_of_wide mem self) as Hmo.
  pose proof (color_outcome self) as Hco.
  pose proof (payload_outcome self) as Hpo.
  assert (∀ e, Codec.message wide_read_of_narrow narrow_read_of_wide mem self = Raise e →
               Printing.__str__ wide_read_of_narrow narrow_read_of_wide mem
                 format_value self = Raise e) as Hfirst.
  { intros e He. by rewrite He in Hstr. }
  split; [|split; [exact Hfirst|]]; [|split; [|split; [|split; [|split]]]].
  - split.
    + intros [s Hs]. rewrite Hs in Hstr.
      destruct (Codec.message _ _ _ self) as [mv|] eqn:Hm; [|discriminate Hstr].
      split; [eauto|].
      destruct Hco as [[Hc [cv Hcv]]|[_ Hcv]]; rewrite Hcv in Hstr; [|discriminate Hstr].
      split; [exact Hc|].
      destruct Hpo as [[Hp _]|[_ Hpv]]; [exact Hp|].
      rewrite Hpv in Hstr. discriminate Hstr.
    + intros ([mv Hm] & Hc & Hp). rewrite Hm in Hstr.
      destruct Hco as [[_ [cv Hcv]]|[Hc' _]]; [|contradiction].
      destruct Hpo as [[_ [pv Hpv]]|[Hp' _]]; [|contradiction].
      by rewrite Hcv, Hpv in Hstr.
  - intros [mv Hm] Hc. rewrite Hm in Hstr.
    destruct Hco as [[Hc' _]|[_ Hcv]]; [contradiction|].
    by rewrite Hcv in Hstr.
  - intros [mv Hm] Hc Hp. rewrite Hm in Hstr.
    destruct Hco as [[_ [cv Hcv]]|[Hc' _]]; [|contradiction].
    destruct Hpo as [[Hp' _]|[_ Hpv]]; [contradiction|].
    by rewrite Hcv, Hpv in Hstr.
  - intros Hk. destruct Hmo as [[_ Hv]|[[Hk' _]|[Hk' _]]]; [exact Hv|lia|lia].
  - intros Hk. destruct Hmo as [[Hk' _]|[[_ Hu]|[Hk' _]]]; [lia| |lia].
    split; [exact Hu|]. rewrite Hu.
    split; [by intros ->; eexists|].
    split; [by intros t ->; eexists|].
    intros s e Hptr Hread. apply Hfirst. by rewrite Hu, Hptr.
  - intros Hk. destruct Hmo as [[Hk' _]|[[Hk' _]|[_ Hr]]]; [lia|lia|].
    by apply Hfirst.
Qed.

Lemma create_event_kinds_known
    (message : option string) (color : option Z) (payload : pyval)
    (category : option Z) :
  let ea := Codec._create_event message color payload category in
  0 ≤ Codec._message_type ea ≤ 1
  ∧ 0 ≤ Codec._color_type ea ≤ 1
  ∧ (Codec._payload_type ea = 0 ∨ 2 ≤ Codec._payload_type ea ≤ 3).
Proof.
  pose proof (create_event_message_fields message color payload category) as Hm.
  pose proof (create_event_color_fields message color payload category) as Hc.
  pose proof (create_event_payload_type_cases message color payload category) as Hp.
  cbv zeta in *.
  split; [destruct message; destruct Hm as [-> _]; lia|].
  split; [destruct color; destruct Hc as [-> _]; lia|].
  destruct payload; destruct Hp as [-> _]; vm_compute; intuition discriminate.
Qed.

(** X6: on a record built by [_create_event], whatever the arguments,
    the three properties and [__str__] return without raising, and the
    version, size and reserved fields are 1, 48 and 0. *)
Theorem encoded_record_always_decodes
    {memory : Type} (wide_read_of_narrow : memory → string → outcome pyval)
    (narrow_read_of_wide : string → pyval) (mem : memory)
    (format_value : pyval → string)
    (message : option string) (color : option Z) (payload : pyval)
    (category : option Z) :
  let ea := Codec._create_event message color payload category in
  (∃ v, Codec.message wide_read_of_narrow narrow_read_of_wide mem ea = Ok v)
  ∧ (∃ v, Codec.color ea = Ok v)
  ∧ (∃ v, Codec.payload ea = Ok v)
  ∧ (∃ s, Printing.__str__ wide_read_of_narrow narrow_read_of_wide mem format_value ea
          = Ok s)
  ∧ Codec.version ea = 1 ∧ Codec.size ea = 48 ∧ Codec._reserved0 ea = 0.
Proof.
  intros ea.
  destruct (create_event_kinds_known message color payload category)
    as (Hm & Hc & Hp). fold ea in Hm, Hc, Hp.
  destruct (message_outcome wide_read_of_narrow narrow_read_of_wide mem ea)
    as [[_ [mv Hmv]]|[[Hm' _]|[Hm' _]]]; [|lia|lia].
  destruct (color_outcome ea) as [[_ [cv Hcv]]|[Hc' _]]; [|lia].
  destruct (payload_outcome ea) as [[_ [pv Hpv]]|[Hp' _]]; [|lia].
  split; [eauto|]. split; [eauto|]. split; [eauto|].
  split.
  { unfold Printing.__str__, Printing.attrs. cbn [Printing.items Printing.getattr].
    rewrite Hpv, Hcv, Hmv. eauto. }
  unfold ea. destruct message, color, payload, category; repeat split.
Qed.

(** ** The facade and the two context managers *)

(** X10: [profile_range_nvtx_only] reads no clock and writes no
    object: entering changes only the native log, a normal exit adds
    only the pop to the world the block left, whatever the statistics
    table holds, and an exception of the block passes through with no
    pop. *)
Theorem nvtx_only_range_keeps_no_statistics
    (b : binding) (name : string) (color : option Z) (payload : pyval)
    (category : option Z) (A : Type) (body : M A) (w : world) :
  let g := profile_range_nvtx_only b name color payload category in
  let w1 := (before_yield g w).2 in
  let pops := match b with Bound => [nvtxRangePop] | Unavailable => [] end in
  (w_lists w1 = w_lists w ∧ w_dicts w1 = w_dicts w ∧ w_next w1 = w_next w
   ∧ w_clock w1 = w_clock w ∧ w_ticks w1 = w_ticks w)
  ∧ (∀ a w2, body w1 = (Ok a, w2) →
       ∃ w3, with_ g body w = (Ok a, w3)
             ∧ w_lists w3 = w_lists w2 ∧ w_dicts w3 = w_dicts w2
             ∧ w_next w3 = w_next w2
             ∧ w_clock w3 = w_clock w2 ∧ w_ticks w3 = w_ticks w2
             ∧ w_native w3 = w_native w2 ++ pops)
  ∧ (∀ e w2, body w1 = (Raise e, w2) → with_ g body w = (Raise e, w2)).
Proof.
  intros g w1 pops.
  assert (∃ w1', before_yield g w = (Ok tt, w1')
                 ∧ w_lists w1' = w_lists w ∧ w_dicts w1' = w_dicts w
                 ∧ w_next w1' = w_next w
                 ∧ w_clock w1' = w_clock w ∧ w_ticks w1' = w_ticks w)
    as (w1' & Hent & Hframe).
  { unfold g, profile_range_nvtx_only, profile_range_push; simpl.
    destruct b; [destruct (all_None color payload None)|];
      eexists; split; try reflexivity; repeat split. }
  assert (w1 = w1') as -> by (unfold w1; by rewrite Hent).
  split; [exact Hframe|]. split.
  - intros a w2 Hbody.
    assert (∃ w3, after_yield g tt w2 = (Ok tt, w3)
                  ∧ w_lists w3 = w_lists w2 ∧ w_dicts w3 = w_dicts w2
                  ∧ w_next w3 = w_next w2
                  ∧ w_clock w3 = w_clock w2 ∧ w_ticks w3 = w_ticks w2
                  ∧ w_native w3 = w_native w2 ++ pops) as (w3 & Hexit & H3).
    { unfold g, pops, profile_range_nvtx_only, profile_range_pop; simpl.
      destruct b; eexists; (split; [reflexivity|]); simpl; rewrite ?app_nil_r;
        repeat split. }
    exists w3. split; [|exact H3].
    exact (with_normal g body w w1' w2 w3 tt a Hent Hbody Hexit).
  - intros e w2 Hbody. exact (with_raise g body w w1' w2 tt e Hent Hbody).
Qed.

Lemma after_yield_binding (b : binding) (name : string) (color : option Z)
    (payload : pyval) (category : option Z) (t0 : float) (w : world) :
  let r := after_yield (profile_range b name color payload category) t0 w in
  let r' := after_yield (profile_range Unavailable name color payload category) t0 w in
  r.1 = r'.1
  ∧ w_lists r.2 = w_lists r'.2 ∧ w_dicts r.2 = w_dicts r'.2
  ∧ w_next r.2 = w_next r'.2
  ∧ w_clock r.2 = w_clock r'.2 ∧ w_ticks r.2 = w_ticks r'.2.
Proof.
  destruct b; [|by repeat split].
  unfold profile_range, profile_range_pop. simpl.
  unfold mbind, mret, M_mbind, M_mret, M_bind, M_ret, time, read_dict, truthy,
    native, read_list, new_list, write_dict. simpl.
  destruct (dict_get name _) as [s|]; simpl; [|by repeat split].
  destruct (bool_decide _); simpl; [by repeat split|].
  destruct (list_iadd s 0 (VInt 1) _) as [[[]|e] w1]; simpl; [|by repeat split].
  destruct (list_iadd s 1 _ w1) as [[[]|e] w2]; simpl; by repeat split.
Qed.

Lemma same_store_refl (w : world) : same_store w w.
Proof. by repeat split. Qed.

Lemma same_store_trans (w1 w2 w3 : world) :
  same_store w1 w2 → same_store w2 w3 → same_store w1 w3.
Proof.
  intros (?&?&?&?&?) (?&?&?&?&?). repeat split; congruence.
Qed.

Lemma after_yield_log_blind (name : string) (color : option Z)
    (payload : pyval) (category : option Z) (t0 : float) :
  log_blind (after_yield (profile_range Unavailable name color payload category) t0).
Proof.
  intros [L D N G C T] [L' D' N' G' C' T'] (HL & HD & HN & HC & HT).
  simpl in *. subst L' D' N' C' T'.
  unfold profile_range, profile_range_pop, list_iadd. simpl.
  unfold mbind, mret, M_mbind, M_mret, M_bind, M_ret, time, read_dict, truthy,
    native, read_list, new_list, write_dict, write_list, lift, raise. simpl.
  destruct (dict_get name _) as [s|]; simpl; [|by repeat split].
  destruct (bool_decide _); simpl; [by repeat split|].
  destruct (default [] (L !! s) !! 0%nat) as [x|]; simpl; [|by repeat split].
  destruct (py_add x (VInt 1)) as [y|e]; simpl; [|by repeat split].
  rewrite lookup_insert_eq. simpl.
  destruct (<[0%nat:=y]> (default [] (L !! s)) !! 1%nat) as [x'|]; simpl;
    [|by repeat split].
  destruct (py_add x' _) as [y'|e]; simpl; by repeat split.
Qed.

(** X11: for a block whose behaviour does not depend on the native log,
    [with profile_range(...)] has the same outcome and leaves the same
    objects, clock and statistics whether the binding is available or
    not. *)
Theorem statistics_kept_without_the_library
    (b : binding) (name : string) (color : option Z) (payload : pyval)
    (category : option Z) (A : Type) (body : M A) (w : world) :
  log_blind body →
  let r := with_ (profile_range b name color payload category) body w in
  let r' := with_ (profile_range Unavailable name color payload category) body w in
  r.1 = r'.1
  ∧ same_store r.2 r'.2
  ∧ (∀ n, stat_of r.2 n = stat_of r'.2 n).
Proof.
  intros Hblind r r'.
  destruct (profile_range_enter b name color payload category w)
    as (w1 & Hent & Hl1 & Hd1 & Hn1 & Hc1 & Ht1 & _).
  destruct (profile_range_enter Unavailable name color payload category w)
    as (w1' & Hent' & Hl1' & Hd1' & Hn1' & Hc1' & Ht1' & _).
  assert (same_store w1 w1') as Hs1 by (repeat split; congruence).
  destruct (Hblind w1 w1' Hs1) as [Ho Hs2].
  unfold r, r', with_. rewrite Hent, Hent'. cbv beta iota.
  destruct (body w1) as [[a|e] w2], (body w1') as [[a'|e'] w2'];
    cbv beta iota; simpl in Ho, Hs2; try discriminate Ho.
  - injection Ho as <-.
    pose proof (after_yield_binding b name color payload category
                  (w_clock w (w_ticks w)) w2) as (Hb1 & Hb2).
    cbv zeta in Hb1, Hb2.
    destruct (after_yield_log_blind name color payload category
                (w_clock w (w_ticks w)) w2 w2' Hs2) as [Hu1 Hu2].
    destruct (after_yield (profile_range b name color payload category) _ w2)
      as [[[]|e3] w3],
      (after_yield (profile_range Unavailable name color payload category) _ w2)
      as [[[]|e4] w4],
      (after_yield (profile_range Unavailable name color payload category) _ w2')
      as [[[]|e5] w5];
      cbv beta iota delta [fst snd] in *; try discriminate; try congruence;
      (assert (same_store w3 w5) as Hs35
         by (eapply same_store_trans; [exact Hb2 | exact Hu2]));
      (split; [congruence|]); (split; [exact Hs35|]);
      intros n; destruct Hs35 as (? & ? & _); by apply stat_of_ext.
  - injection Ho as <-.
    split; [reflexivity|]. split; [exact Hs2|].
    intros n. destruct Hs2 as (? & ? & _). by apply stat_of_ext.
Qed.

(** ** The statistics table across ranges *)

Lemma dict_values_distinct_keys (d : list (string * nat)) (k1 k2 : string) (v : nat) :
  NoDup d.*2 → (k1, v) ∈ d → (k2, v) ∈ d → k1 = k2.
Proof.
  induction d as [|[k v0] r IH]; csimpl; intros Hnd H1 H2; [inversion H1|].
  apply NoDup_cons in Hnd as [Hv0 Hnd].
  apply elem_of_cons in H1 as [H1|H1];
    apply elem_of_cons in H2 as [H2|H2]; simplify_eq.
  - reflexivity.
  - exfalso. apply Hv0. apply list_elem_of_fmap. by exists (k2, v0).
  - exfalso. apply Hv0. apply list_elem_of_fmap. by exists (k1, v0).
  - by apply IH.
Qed.

Lemma NoDup_dict_set_values (k : string) (v : nat) (d : list (string * nat)) :
  NoDup d.*2 → v ∉ d.*2 → NoDup (dict_set k v d).*2.
Proof.
  induction d as [|[k' v'] r IH]; csimpl; intros Hnd Hv.
  - apply NoDup_singleton.
  - apply NoDup_cons in Hnd as [Hv' Hnd].
    apply not_elem_of_cons in Hv as [Hne Hv].
    destruct (String.eqb k k'); csimpl.
    + apply NoDup_cons. split; [exact Hv | exact Hnd].
    + apply NoDup_cons. split; [|by apply IH].
      intros Hin. apply list_elem_of_fmap in Hin as [[k0 v0] [Heq Hin]].
      simpl in Heq. subst v0.
      assert ((k0, v') ∈ dict_set k v r → v' = v ∨ (k0, v') ∈ r) as Hcase.
      { clear. induction r as [|[k1 v1] r IH]; simpl.
        - intros [[= _ ->]|H]%elem_of_cons; [by left | inversion H].
        - destruct (String.eqb k k1).
          + intros [[= -> ->]|H]%elem_of_cons; [by left | right; by right].
          + intros [[= -> ->]|H]%elem_of_cons; [right; by left|].
            destruct (IH H) as [|]; [by left | right; by right]. }
      destruct (Hcase Hin) as [->|Hr]; [congruence|].
      apply Hv'. apply list_elem_of_fmap. by exists (k0, v').
Qed.

Lemma range_exit_frame
    (b : binding) (name : string) (color : option Z) (payload : pyval)
    (category : option Z) (A : Type) (body : M A) (w : world) (a : A) (w2 : world) :
  let g := profile_range b name color payload category in
  body (before_yield g w).2 = (Ok a, w2) →
  stats_wf w2 → stats_distinct w2 → stat_entry_ok w2 name →
  ∃ w3, with_ g body w = (Ok a, w3)
        ∧ (∀ other, other ≠ name → stat_of w3 other = stat_of w2 other)
        ∧ (∀ other, other ≠ name →
             dict_get other (default [] (w_dicts w3 !! _stats))
             = dict_get other (default [] (w_dicts w2 !! _stats)))
        ∧ stats_wf w3 ∧ stats_distinct w3.
Proof.
  intros g Hbody (Hlt & Hnd & Hall) Hdist Hok.
  destruct (profile_range_enter b name color payload category w) as (w1 & Hent & _).
  fold g in Hent. rewrite Hent in Hbody. simpl in Hbody.
  set (d := default [] (w_dicts w2 !! _stats)) in *.
  assert (∀ k l, dict_get k d = Some l → (l < w_next w2)%nat) as Hbound.
  { intros k l Hk. apply dict_get_elem in Hk. rewrite Forall_forall in Hall.
    exact (Hall _ Hk). }
  unfold stat_entry_ok in Hok.
  destruct (stat_of w2 name) as [xs|] eqn:Hstat;
    [destruct Hok as [->|(count & total & ->)]|].
  2: { (* the entry is incremented in place *)
    destruct (after_yield_increments b name color payload category
                (w_clock w (w_ticks w)) w2 count total Hstat)
      as (w3 & l & H3 & Hget & Hd & Hl3 & Hn3 & _).
    exists w3. split; [exact (with_normal g body w w1 w2 w3 _ a Hent Hbody H3)|].
    assert (∀ other, other ≠ name → ∀ l', dict_get other d = Some l' → l' ≠ l) as Hne.
    { intros other Ho l' Hl' Heq. subst l'. apply Ho.
      apply (dict_values_distinct_keys d other name l Hdist);
        by apply dict_get_elem. }
    split; [|split; [|split]].
    - intros other Ho. unfold stat_of. rewrite Hd. fold d.
      destruct (dict_get other d) as [l'|] eqn:Hl'; [|reflexivity].
      rewrite Hl3. apply lookup_insert_ne. intros Heq.
      by apply (Hne other Ho l').
    - intros other Ho. by rewrite Hd.
    - unfold stats_wf. rewrite Hd, Hn3. by repeat split.
    - unfold stats_distinct. by rewrite Hd. }
  all: (* the entry is created *)
    (destruct (after_yield_creates b name color payload category
                 (w_clock w (w_ticks w)) w2)
       as (w3 & H3 & _ & Hother & Hl3 & Hn3 & _ & _ & _ & Hd);
     [first [by right | by left]|]);
    exists w3; (split; [exact (with_normal g body w w1 w2 w3 _ a Hent Hbody H3)|]);
    (split; [|split; [|split]]).
  all: try (intros other Ho; unfold stat_of; rewrite (Hother other Ho); fold d;
            destruct (dict_get other d) as [l'|] eqn:Hl'; [|reflexivity];
            rewrite Hl3; apply lookup_insert_ne; apply Hbound in Hl'; lia).
  all: try (intros other Ho; exact (Hother other Ho)).
  all: try (unfold stats_wf; rewrite Hd, Hn3, lookup_insert_eq; simpl; fold d;
            split; [lia|]; split; [by apply NoDup_dict_set|];
            apply Forall_dict_set; [intros; simpl; lia|];
            eapply Forall_impl; [exact Hall|]; simpl; intros; lia).
  all: unfold stats_distinct; rewrite Hd, lookup_insert_eq; simpl; fold d;
    apply NoDup_dict_set_values; [exact Hdist|];
    intros Hin; apply list_elem_of_fmap in Hin as [[k0 v0] [Heq Hin]];
    simpl in Heq; subst v0; rewrite Forall_forall in Hall;
    specialize (Hall _ Hin); simpl in Hall; lia.
Qed.

(** X12: when the table's keys and lists are distinct and older than
    the next object, a normal exit of [profile_range(name, ...)] leaves
    the entry of every other name, and the list it refers to, as they
    were. *)
Theorem range_exit_leaves_other_names
    (b : binding) (name : string) (color : option Z) (payload : pyval)
    (category : option Z) (A : Type) (body : M A) (w : world) (a : A) (w2 : world) :
  let g := profile_range b name color payload category in
  body (before_yield g w).2 = (Ok a, w2) →
  stats_wf w2 → stats_distinct w2 → stat_entry_ok w2 name →
  ∃ w3, with_ g body w = (Ok a, w3)
        ∧ (∀ other, other ≠ name → stat_of w3 other = stat_of w2 other)
        ∧ (∀ other, other ≠ name →
             dict_get other (default [] (w_dicts w3 !! _stats))
             = dict_get other (default [] (w_dicts w2 !! _stats))).
Proof.
  intros g Hbody Hwf Hdist Hok.
  destruct (range_exit_frame b name color payload category A body w a w2
              Hbody Hwf Hdist Hok) as (w3 & Hwith & Hs & Hd & _).
  exists w3. split; [exact Hwith|]. split; [exact Hs | exact Hd].
Qed.

(** X13: a [with profile_range(...)] statement whose block completes
    normally keeps the table's invariant: distinct keys, references to
    existing [[count, total]] lists older than the next object, and no
    list shared by two names. *)
Theorem range_keeps_table_invariant
    (b : binding) (name : string) (color : option Z) (payload : pyval)
    (category : option Z) (A : Type) (body : M A) (w : world) (a : A) (w2 : world) :
  let g := profile_range b name color payload category in
  body (before_yield g w).2 = (Ok a, w2) →
  stats_inv w2 → stats_distinct w2 →
  ∃ w3, with_ g body w = (Ok a, w3) ∧ stats_inv w3 ∧ stats_distinct w3.
Proof.
  intros g Hbody Hinv Hdist.
  destruct (with_range_preserves_inv b name color payload category A body w a w2
              Hbody Hinv) as (w3 & Hwith & Hinv3).
  destruct (range_exit_frame b name color payload category A body w a w2
              Hbody (proj1 Hinv) Hdist (stats_shaped_entry_ok w2 name (proj2 Hinv)))
    as (w3' & Hwith' & _ & _ & _ & Hdist3).
  fold g in Hwith, Hwith'. rewrite Hwith in Hwith'. injection Hwith' as <-.
  exists w3. split; [exact Hwith|]. split; [exact Hinv3 | exact Hdist3].
Qed.

Lemma enter_all_frame (b : binding) (ranges : list (string * option Z * pyval * option Z)) :
  ∀ w, ∃ calls,
    w_lists (enter_all b ranges w) = w_lists w
    ∧ w_dicts (enter_all b ranges w) = w_dicts w
    ∧ w_next (enter_all b ranges w) = w_next w
    ∧ w_clock (enter_all b ranges w) = w_clock w
    ∧ w_ticks (enter_all b ranges w) = (w_ticks w + length ranges)%nat
    ∧ w_native (enter_all b ranges w) = w_native w ++ calls
    ∧ count_pop calls = 0%nat
    ∧ count_push calls = length calls
    ∧ length calls = match b with Bound => length ranges | Unavailable => 0%nat end.
Proof.
  induction ranges as [|[[[name color] payload] category] r IH]; intros w.
  - exists []. simpl. rewrite app_nil_r. repeat split; try lia. by destruct b.
  - destruct (profile_range_enter b name color payload category w)
      as (w1 & Hent & Hl & Hd & Hn & Hc & Ht & Hlog).
    destruct (IH w1) as (calls & Hl' & Hd' & Hn' & Hc' & Ht' & Hlog' & Hpop & Hpush & Hlen).
    change (enter_all b ((name, color, payload, category) :: r) w)
      with (enter_all b r (before_yield (profile_range b name color payload category) w).2).
    rewrite Hent. simpl fst. simpl snd.
    set (first := match b with
                  | Bound =>
                      [if all_None color payload None then nvtxRangePushA (Some name)
                       else nvtxRangePushEx
                              (Codec._create_event (Some name) color payload None)]
                  | Unavailable => []
                  end) in Hlog.
    exists (first ++ calls).
    split; [congruence|]. split; [congruence|]. split; [congruence|].
    split; [congruence|]. split; [rewrite Ht', Ht; simpl; lia|].
    split; [by rewrite Hlog', Hlog, app_assoc|].
    unfold count_pop, count_push in *. rewrite !List.filter_app, !length_app.
    rewrite Hpop, Hpush, Hlen. unfold first.
    destruct b; [destruct (all_None color payload None)|]; simpl; repeat split; lia.
Qed.

(** X14: when the innermost block of nested [profile_range] statements
    raises, the exception crosses every level: the result is the
    block's exception in the block's final world, after one range push
    per level (none when the binding is unavailable), no pop, and no
    write to the table on entry. *)
Theorem exception_skips_every_pop
    (b : binding) (ranges : list (string * option Z * pyval * option Z))
    (A : Type) (body : M A) (w : world) (e : exn) (w' : world) :
  body (enter_all b ranges w) = (Raise e, w') →
  nested_ranges b ranges body w = (Raise e, w')
  ∧ ∃ calls,
      w_native (enter_all b ranges w) = w_native w ++ calls
      ∧ count_pop calls = 0%nat
      ∧ count_push calls = match b with Bound => length ranges | Unavailable => 0%nat end
      ∧ w_lists (enter_all b ranges w) = w_lists w
      ∧ w_dicts (enter_all b ranges w) = w_dicts w.
Proof.
  intros Hbody. split.
  - revert w Hbody.
    induction ranges as [|[[[name color] payload] category] r IH]; intros w Hbody.
    + exact Hbody.
    + destruct (profile_range_enter b name color payload category w) as (w1 & Hent & _).
      change (nested_ranges b ((name, color, payload, category) :: r) body w)
        with (with_ (profile_range b name color payload category)
                (nested_ranges b r body) w).
      eapply with_raise; [exact Hent|]. apply IH.
      change (enter_all b ((name, color, payload, category) :: r) w)
        with (enter_all b r (before_yield (profile_range b name color payload category) w).2)
        in Hbody.
      by rewrite Hent in Hbody.
  - destruct (enter_all_frame b ranges w)
      as (calls & Hl & Hd & _ & _ & _ & Hlog & Hpop & Hpush & Hlen).
    exists calls. rewrite Hpush, Hlen. by repeat split.
Qed.

(** X15: two nested [profile_range] statements on the same name,
    around a block that leaves the name without entry, end with the
    entry [[2, d_inner + d_outer]]: the inner exit creates it and the
    outer exit increments it, the outer duration covering the inner. *)
Theorem nested_ranges_on_one_name
    (b : binding) (name : string)
    (color1 : option Z) (payload1 : pyval) (category1 : option Z)
    (color2 : option Z) (payload2 : pyval) (category2 : option Z)
    (A : Type) (body : M A) (w : world) (a : A) (w3 : world) :
  let ranges := [(name, color1, payload1, category1);
                 (name, color2, payload2, category2)] in
  body (enter_all b ranges w) = (Ok a, w3) →
  stat_of w3 name = None →
  ∃ w5, nested_ranges b ranges body w = (Ok a, w5)
        ∧ stat_of w5 name
          = Some [VInt 2;
                  VFloat (PrimFloat.add
                            (PrimFloat.sub (w_clock w3 (w_ticks w3))
                               (w_clock w (S (w_ticks w))))
                            (PrimFloat.sub (w_clock w3 (S (w_ticks w3)))
                               (w_clock w (w_ticks w))))].
Proof.
  intros ranges Hbody Hstat.
  set (g1 := profile_range b name color1 payload1 category1).
  set (g2 := profile_range b name color2 payload2 category2).
  destruct (profile_range_enter b name color1 payload1 category1 w)
    as (w1 & Hent1 & _ & _ & _ & Hc1 & Ht1 & _).
  destruct (profile_range_enter b name color2 payload2 category2 w1)
    as (w2 & Hent2 & _).
  fold g1 in Hent1. fold g2 in Hent2.
  assert (enter_all b ranges w = w2) as Hw2.
  { change (enter_all b ranges w) with ((before_yield g2 (before_yield g1 w).2).2).
    rewrite Hent1. cbn [snd]. by rewrite Hent2. }
  rewrite Hw2 in Hbody.
  (* the inner exit creates the entry *)
  destruct (after_yield_creates b name color2 payload2 category2
              (w_clock w1 (w_ticks w1)) w3 (or_introl Hstat))
    as (w4 & H4 & Hs4 & _ & _ & _ & Ht4 & Hc4 & _).
  fold g2 in H4.
  pose proof (with_normal g2 body w1 w2 w3 w4 _ a Hent2 Hbody H4) as Hinner.
  (* the outer exit increments it *)
  destruct (after_yield_increments b name color1 payload1 category1
              (w_clock w (w_ticks w)) w4 _ _ Hs4)
    as (w5 & l & H5 & Hget & Hd & Hl & _).
  fold g1 in H5.
  exists w5. split.
  - change (nested_ranges b ranges body w) with (with_ g1 (with_ g2 body) w).
    exact (with_normal g1 (with_ g2 body) w w1 w4 w5 _ a Hent1 Hinner H5).
  - unfold stat_of. rewrite Hd, Hget, Hl, lookup_insert_eq.
    by rewrite Hc4, Ht4, Hc1, Ht1.
Qed.

(** X16: a function wrapped by [profiled] starts in the caller's
    objects; its exception leaves the wrapper unchanged, in the world
    the function left; its result is the wrapper's result when the
    entry for the tag is one the module made. *)
Theorem profiled_is_transparent
    (b : binding) (tag : string) (category : option Z) (color : option Z)
    (payload : pyval) (A : Type) (func : M A) (w : world) :
  let w1 := (before_yield (profile_range b tag color payload category) w).2 in
  (w_lists w1 = w_lists w ∧ w_dicts w1 = w_dicts w ∧ w_next w1 = w_next w)
  ∧ (∀ e w2, func w1 = (Raise e, w2) →
       profiled b tag category color payload func w = (Raise e, w2))
  ∧ (∀ a w2, func w1 = (Ok a, w2) → stat_entry_ok w2 tag →
       ∃ w3, profiled b tag category color payload func w = (Ok a, w3)).
Proof.
  intros w1.
  destruct (profile_range_enter b tag color payload category w)
    as (w1' & Hent & Hl & Hd & Hn & _).
  assert (w1 = w1') as -> by (unfold w1; by rewrite Hent).
  split; [by repeat split|]. split.
  - intros e w2 Hf. unfold profiled. exact (with_raise _ func w w1' w2 _ e Hent Hf).
  - intros a w2 Hf Hok. unfold profiled.
    assert (∃ w3, after_yield (profile_range b tag color payload category)
                    (w_clock w (w_ticks w)) w2 = (Ok tt, w3)) as [w3 H3].
    { unfold stat_entry_ok in Hok.
      destruct (stat_of w2 tag) as [xs|] eqn:Hstat.
      - destruct Hok as [->|(count & total & ->)].
        + destruct (after_yield_creates b tag color payload category
                      (w_clock w (w_ticks w)) w2 (or_intror Hstat)) as (w3 & H3 & _).
          eauto.
        + destruct (after_yield_increments b tag color payload category
                      (w_clock w (w_ticks w)) w2 count total Hstat) as (w3 & l & H3 & _).
          eauto.
      - destruct (after_yield_creates b tag color payload category
                    (w_clock w (w_ticks w)) w2 (or_introl Hstat)) as (w3 & H3 & _).
        eauto. }
    exists w3. exact (with_normal _ func w w1' w2 w3 _ a Hent Hf H3).
Qed.

Lemma getstats_fresh (w : world) :
  stats_wf w →
  ∃ w' dy,
    getstats w = (Ok (w_next w), w')
    ∧ w_dicts w' !! w_next w = Some dy
    ∧ Forall (λ kv : string * nat, (w_next w < kv.2 < w_next w')%nat) dy
    ∧ contents w' (w_next w) = contents w _stats
    ∧ frame_below (w_next w) w w'
    ∧ (w_next w < w_next w')%nat.
Proof.
  intros (Hlt & Hnd & Hall).
  set (n0 := w_next w). set (items := default [] (w_dicts w !! _stats)) in *.
  set (w1 := {| w_lists := w_lists w; w_dicts := <[n0 := []]> (w_dicts w);
                w_next := S n0; w_native := w_native w;
                w_clock := w_clock w; w_ticks := w_ticks w |}).
  destruct (deepcopy_items_spec n0 (w_lists w) items [] w1 [])
    as (w' & dy' & Hrun & Hd' & Hl' & Hdd & Hnx & Hna & Hcl & Hti & Hfr & Hco);
    simpl; auto.
  { apply lookup_insert_eq. }
  { discriminate. }
  exists w', dy'. split.
  { unfold getstats, deepcopy_dict.
    unfold mbind, mret, M_mbind, M_mret, M_bind, M_ret, read_dict, new_dict; simpl.
    fold n0 items w1. by rewrite Hrun. }
  split; [exact Hd'|]. split; [exact Hfr|].
  split.
  { unfold contents. rewrite Hd'. simpl. exact Hco. }
  split.
  { split; intros x Hx.
    - rewrite Hl' by (simpl; lia). reflexivity.
    - rewrite Hdd by lia. simpl. by rewrite lookup_insert_ne by lia. }
  simpl in Hnx. lia.
Qed.

(** X17: [getstats] returns an object that did not exist before,
    leaves every existing object, the native log and the clock as they
    were, and a second call returns a different object with the same
    contents without disturbing the first. *)
Theorem getstats_reads_only (w : world) :
  stats_wf w →
  ∃ r w' r2 w'',
    getstats w = (Ok r, w')
    ∧ getstats w' = (Ok r2, w'')
    ∧ (w_next w ≤ r)%nat ∧ r2 ≠ r
    ∧ frame_below (w_next w) w w'
    ∧ contents w' _stats = contents w _stats
    ∧ w_native w'' = w_native w ∧ w_clock w'' = w_clock w ∧ w_ticks w'' = w_ticks w
    ∧ contents w'' r2 = contents w' r
    ∧ contents w'' r = contents w' r.
Proof.
  intros Hwf.
  destruct (getstats_spec w Hwf) as (w' & Hget & Hco & Hfr & Hheld & Hn & Hna & Hcl & Hti).
  destruct (getstats_fresh w Hwf) as (w'_ & dy & Hget_ & Hdy & Hfresh & _).
  rewrite Hget in Hget_. injection Hget_ as <-.
  destruct (frame_below_wf w w' Hwf Hfr) as [Hwf' Hco']; [lia|].
  destruct (getstats_spec w' Hwf') as (w'' & Hget2 & Hco2 & Hfr2 & _ & Hn2 & Hna2 & Hcl2 & Hti2).
  exists (w_next w), w', (w_next w'), w''.
  split; [exact Hget|]. split; [exact Hget2|]. split; [lia|]. split; [lia|].
  split; [exact Hfr|]. split; [exact Hco'|].
  split; [congruence|]. split; [congruence|]. split; [congruence|].
  split; [by rewrite Hco2, Hco', Hco|].
  destruct Hfr2 as [HL2 HD2].
  unfold contents. rewrite HD2 by lia. rewrite Hdy. simpl.
  apply Forall_fmap_ext_1. eapply Forall_impl; [exact Hfresh|].
  simpl. intros [k l] Hl. simpl in *. by rewrite HL2 by lia.
Qed.

(** X18: a mapping returned by [getstats] keeps its contents when a
    later [profile_range] statement updates the table: the statement
    changes the entry of its name and the snapshot still holds what the
    table held. *)
Theorem snapshot_is_not_live
    (b : binding) (name : string) (color : option Z) (payload : pyval)
    (category : option Z) (A : Type) (body : M A) (w : world) :
  stats_inv w → store_neutral body →
  ∃ r w1 a w3,
    getstats w = (Ok r, w1)
    ∧ with_ (profile_range b name color payload category) body w1 = (Ok a, w3)
    ∧ contents w3 r = contents w _stats
    ∧ stat_of w3 name ≠ stat_of w name.
Proof.
  intros [Hwf Hshape] Hbody.
  destruct (getstats_fresh w Hwf) as (w1 & dy & Hget & Hdy & Hfresh & Hco & [HL HD] & Hn).
  destruct Hwf as (Hlt & Hnd & Hall).
  set (d := default [] (w_dicts w !! _stats)) in *.
  assert (default [] (w_dicts w1 !! _stats) = d) as Hd1 by (unfold d; by rewrite HD).
  assert (∀ k l, dict_get k d = Some l → (l < w_next w)%nat) as Hbound.
  { intros k l Hk. apply dict_get_elem in Hk. rewrite Forall_forall in Hall.
    exact (Hall _ Hk). }
  assert (stat_of w1 name = stat_of w name) as Hs1.
  { unfold stat_of. rewrite Hd1. fold d.
    destruct (dict_get name d) as [l|] eqn:Hl; [|reflexivity].
    apply HL. by apply Hbound in Hl. }
  set (g := profile_range b name color payload category).
  destruct (profile_range_enter b name color payload category w1)
    as (w1e & Hent & Hle & Hde & Hne & _).
  destruct (Hbody w1e) as (a & w2 & Hb & Hl2 & Hd2 & Hn2).
  assert (w_lists w2 = w_lists w1 ∧ w_dicts w2 = w_dicts w1 ∧ w_next w2 = w_next w1)
    as (Hl21 & Hd21 & Hn21) by (repeat split; congruence).
  assert (stat_of w2 name = stat_of w name) as Hs2
    by (rewrite <- Hs1; by apply stat_of_ext).
  assert (contents w2 (w_next w) = contents w _stats) as Hco2
    by (rewrite <- Hco; unfold contents; by rewrite Hl21, Hd21).
  exists (w_next w), w1, a.
  destruct (stat_of w name) as [xs|] eqn:Hstat.
  - (* an entry: incremented in place, in a list older than the snapshot *)
    assert (∃ l, dict_get name d = Some l) as [l Hl].
    { unfold stat_of in Hstat. fold d in Hstat.
      destruct (dict_get name d); [eauto | discriminate]. }
    destruct (Hshape name l Hl) as (count & total & Hlist).
    assert (xs = [VInt count; VFloat total]) as ->.
    { unfold stat_of in Hstat. fold d in Hstat. rewrite Hl, Hlist in Hstat. congruence. }
    destruct (after_yield_increments b name color payload category
                (w_clock w1 (w_ticks w1)) w2 count total Hs2)
      as (w3 & l' & H3 & Hget' & Hd3 & Hl3 & _).
    assert (l' = l) as -> by (rewrite Hd21, Hd1, Hl in Hget'; congruence).
    exists w3. split; [exact Hget|].
    split; [exact (with_normal g body w1 w1e w2 w3 _ a Hent Hb H3)|].
    split.
    + rewrite <- Hco2. unfold contents. rewrite Hd3, Hd21, Hdy. simpl.
      apply Forall_fmap_ext_1. eapply Forall_impl; [exact Hfresh|].
      simpl. intros [k x] Hx. simpl in *. rewrite Hl3.
      rewrite lookup_insert_ne; [reflexivity|]. apply Hbound in Hl. lia.
    + unfold stat_of. rewrite Hd3, Hget', Hl3, lookup_insert_eq.
      intros [= Hc]. lia.
  - (* no entry: created in a list newer than the snapshot *)
    destruct (after_yield_creates b name color payload category
                (w_clock w1 (w_ticks w1)) w2 (or_introl Hs2))
      as (w3 & H3 & Hs3 & _ & Hl3 & _ & _ & _ & _ & Hd3).
    exists w3. split; [exact Hget|].
    split; [exact (with_normal g body w1 w1e w2 w3 _ a Hent Hb H3)|].
    split.
    + rewrite <- Hco2. unfold contents. rewrite Hd3.
      rewrite lookup_insert_ne by (unfold _stats in *; lia).
      rewrite Hd21, Hdy. simpl.
      apply Forall_fmap_ext_1. eapply Forall_impl; [exact Hfresh|].
      simpl. intros [k x] Hx. simpl in *. rewrite Hl3.
      rewrite lookup_insert_ne; [reflexivity|]. lia.
    + rewrite Hs3. discriminate.
Qed.

Lemma store_neutral_keeps (A : Type) (body : M A) (w : world) :
  store_neutral body →
  ∃ a w', body w = (Ok a, w')
          ∧ (stats_inv w → stats_inv w')
          ∧ (stats_distinct w → stats_distinct w')
          ∧ (∀ n, stat_of w' n = stat_of w n).
Proof.
  intros H. destruct (H w) as (a & w' & Hb & Hl & Hd & Hn).
  exists a, w'. split; [exact Hb|].
  unfold stats_inv, stats_wf, stats_shaped, stats_distinct.
  rewrite Hl, Hd, Hn. repeat split; try tauto.
  intros n. by apply stat_of_ext.
Qed.

Lemma stats_shaped_stat_of (w : world) (name : string) :
  stats_shaped w →
  stat_of w name = None ∨ ∃ count total, stat_of w name = Some [VInt count; VFloat total].
Proof.
  intros Hs. unfold stat_of.
  destruct (dict_get name _) as [l|] eqn:Hget; [|by left].
  destruct (Hs name l Hget) as (c & t & ->). right. eauto.
Qed.

(** X19: after a run of [profile_range] statements over any names,
    whose blocks write to no object, started from a table that
    satisfies the invariant, the count held for each name has grown by
    the number of statements of the run that carry that name. *)
Theorem run_counts_each_name
    (b : binding) (invs : list (string * option Z * pyval * option Z * M unit)) :
  Forall (λ inv, store_neutral inv.2) invs →
  ∀ w, stats_inv w → stats_distinct w →
    ∃ w', run_named b invs w = (Ok tt, w')
          ∧ stats_inv w' ∧ stats_distinct w'
          ∧ ∀ name, count_of w' name
                    = count_of w name + Z.of_nat (occurrences name invs).
Proof.
  induction 1 as [|[[[[name color] payload] category] body] r Hbody Hr IH];
    intros w Hinv Hdist.
  - exists w. split; [reflexivity|]. split; [exact Hinv|]. split; [exact Hdist|].
    intros name. unfold occurrences. simpl. lia.
  - simpl in Hbody.
    destruct (profile_range_enter b name color payload category w)
      as (w1 & Hent & Hl1 & Hd1 & Hn1 & _).
    assert (stats_inv w1 ∧ stats_distinct w1 ∧ ∀ n, stat_of w1 n = stat_of w n)
      as (Hinv1 & Hdist1 & Hs1).
    { unfold stats_inv, stats_wf, stats_shaped, stats_distinct.
      rewrite Hl1, Hd1, Hn1. repeat split; try apply Hinv; try exact Hdist.
      intros n. by apply stat_of_ext. }
    destruct (store_neutral_keeps unit body w1 Hbody)
      as ([] & w2 & Hb & Hinv2 & Hdist2 & Hs2).
    specialize (Hinv2 Hinv1). specialize (Hdist2 Hdist1).
    assert (body (before_yield (profile_range b name color payload category) w).2
            = (Ok tt, w2)) as Hb' by (by rewrite Hent).
    destruct (with_range_preserves_inv b name color payload category unit body w tt w2
                Hb' Hinv2) as (w3 & Hwith & Hinv3).
    destruct (range_exit_frame b name color payload category unit body w tt w2
                Hb' (proj1 Hinv2) Hdist2 (stats_shaped_entry_ok w2 name (proj2 Hinv2)))
      as (w3' & Hwith' & Hothers & _ & _ & Hdist3).
    rewrite Hwith in Hwith'. injection Hwith' as <-.
    assert (count_of w3 name = count_of w name + 1) as Hcount.
    { unfold count_of at 2. rewrite <- (Hs1 name), <- (Hs2 name).
      destruct (stats_shaped_stat_of w2 name (proj2 Hinv2))
        as [Hstat|(count & total & Hstat)]; rewrite Hstat.
      - destruct (with_range_creates b name color payload category unit body w tt w2
                    Hb' Hstat) as (w3' & Hwith' & Hs3).
        rewrite Hwith in Hwith'. injection Hwith' as <-.
        unfold count_of. rewrite Hs3. reflexivity.
      - destruct (with_range_increments b name color payload category unit body w tt w2
                    count total Hb' Hstat) as (w3' & l & Hwith' & _ & _ & _ & Hs3).
        rewrite Hwith in Hwith'. injection Hwith' as <-.
        unfold count_of. rewrite Hs3. reflexivity. }
    destruct (IH w3 Hinv3 Hdist3) as (w' & Hrun & Hinv' & Hdist' & Hcounts).
    exists w'. split.
    { simpl. unfold mbind, M_mbind, M_bind. by rewrite Hwith. }
    split; [exact Hinv'|]. split; [exact Hdist'|].
    intros n. rewrite (Hcounts n). unfold occurrences. simpl.
    destruct (String.eqb_spec name n) as [->|Hne]; simpl.
    + rewrite Hcount. lia.
    + unfold count_of. rewrite (Hothers n) by congruence.
      rewrite (Hs2 n), (Hs1 n). lia.
Qed.

(** ** The further properties on sample inputs *)

Lemma color_roundtrip_witness :
  Codec.color (Codec._create_event (Some "m"%string) (Some colors.cyan) VNone None)
  = Ok (VStr "0xff00ffff").
Proof.
  destruct (proj1 (color_roundtrip (Some "m"%string) VNone None) colors.cyan)
    as (_ & _ & _ & H).
  rewrite H; [reflexivity|]. split; [discriminate | reflexivity].
Defined.

Lemma category_roundtrip_witness :
  Codec.category (Codec._create_event None None VNone (Some 7)) = 7
  ∧ Codec.category (Codec._create_event None None VNone (Some (2 ^ 32 + 7))) = 7.
Proof.
  destruct (category_roundtrip None None VNone) as (Hmod & Hin & _).
  split; [apply Hin; lia | exact (Hmod (2 ^ 32 + 7))].
Defined.

Lemma message_roundtrip_witness :
  Codec.message sample_wide_read sample_narrow_read sample_memory
    (Codec._create_event (Some "range 1"%string) None VNone None)
  = Ok (VBytes "range 1").
Proof.
  destruct (proj1 (message_roundtrip sample_wide_read sample_narrow_read sample_memory
                     None VNone None)
              "range 1"%string) as (_ & _ & _ & H & _).
  apply H. vm_compute. intros H'. repeat destruct H' as [H'|H']; try discriminate H'.
  exact H'.
Defined.

Lemma payload_integral_roundtrip_witness :
  Codec.payload (Codec._create_event None None (VBool true) None) = Ok (VInt 1)
  ∧ Codec.payload (Codec._create_event None None (VInt (2 ^ 64 - 1)) None)
    = Ok (VInt (-1)).
Proof.
  split.
  - apply (payload_integral_roundtrip None None (VBool true) None 1 eq_refl). lia.
  - exact (proj1 (payload_integral_roundtrip None None (VInt (2 ^ 64 - 1)) None
                    (2 ^ 64 - 1) eq_refl)).
Defined.

Lemma str_raises_on_unknown_kind_witness :
  Printing.__str__ sample_wide_read sample_narrow_read sample_memory (λ _, ""%string)
    (Codec.set_payload_type 7 (Codec.set_color_type 5 Codec.__init__))
  = Raise (AttributeError "Color of unknown type")
  ∧ Printing.__str__ sample_wide_read sample_narrow_read sample_memory (λ _, ""%string)
      (Codec.set_message (Codec.narrow "hell")
         (Codec.set_message_type 2 (Codec.set_color_type 5 Codec.__init__)))
    = Raise (ValueError "character U+6c6c6568 is not in range [U+0000; U+10ffff]").
Proof.
  split.
  - apply (str_raises_on_unknown_kind sample_wide_read sample_narrow_read
             sample_memory (λ _, ""%string)
             (Codec.set_payload_type 7 (Codec.set_color_type 5 Codec.__init__))).
    + exists VNone. reflexivity.
    + vm_compute. intros [_ H]. apply H. reflexivity.
  - pose proof (str_raises_on_unknown_kind sample_wide_read sample_narrow_read
                  sample_memory (λ _, ""%string)
                  (Codec.set_message (Codec.narrow "hell")
                     (Codec.set_message_type 2
                        (Codec.set_color_type 5 Codec.__init__))))
      as (_ & _ & _ & _ & _ & H & _).
    destruct (H eq_refl) as (_ & _ & _ & Hn).
    exact (Hn "hell"%string _ eq_refl eq_refl).
Defined.

Lemma log_blind_tick : log_blind (time;; mret tt).
Proof.
  intros [L D N G C T] [L' D' N' G' C' T'] (HL & HD & HN & HC & HT).
  simpl in *. subst. by repeat split.
Qed.

Lemma statistics_kept_without_the_library_witness :
  stat_of (with_ (profile_range Bound "x" None VNone None) (time;; mret tt)
             (module_world sample_clock)).2 "x"
  = stat_of (with_ (profile_range Unavailable "x" None VNone None) (time;; mret tt)
               (module_world sample_clock)).2 "x".
Proof.
  exact (proj2 (proj2 (statistics_kept_without_the_library Bound "x" None VNone None
                         unit (time;; mret tt) (module_world sample_clock)
                         log_blind_tick)) "x"%string).
Defined.

Lemma sample_world_distinct : stats_distinct sample_world.
Proof.
  unfold stats_distinct.
  assert (default [] (w_dicts sample_world !! _stats) = [("x"%string, 1%nat)]) as ->
    by (vm_compute; reflexivity).
  apply NoDup_singleton.
Qed.

Lemma enter_keeps_invariant (b : binding) (name : string) (color : option Z)
    (payload : pyval) (category : option Z) (w : world) :
  stats_inv w → stats_distinct w →
  stats_inv (before_yield (profile_range b name color payload category) w).2
  ∧ stats_distinct (before_yield (profile_range b name color payload category) w).2
  ∧ ∀ n, stat_of (before_yield (profile_range b name color payload category) w).2 n
         = stat_of w n.
Proof.
  intros Hinv Hdist.
  destruct (profile_range_enter b name color payload category w)
    as (w1 & Hent & Hl & Hd & Hn & _).
  rewrite Hent. cbn [snd].
  unfold stats_inv, stats_wf, stats_shaped, stats_distinct.
  rewrite Hl, Hd, Hn.
  split; [exact Hinv|]. split; [exact Hdist|].
  intros n. by apply stat_of_ext.
Qed.

Lemma range_exit_leaves_other_names_witness :
  ∃ w3, with_ (profile_range Bound "y" None VNone None) (mret 0) sample_world
        = (Ok 0, w3)
        ∧ stat_of w3 "x" = Some [VInt 3; VFloat 48].
Proof.
  destruct (enter_keeps_invariant Bound "y" None VNone None sample_world
              sample_world_inv sample_world_distinct) as (Hinv & Hdist & Hs).
  destruct (range_exit_leaves_other_names Bound "y" None VNone None Z (mret 0)
              sample_world 0
              (before_yield (profile_range Bound "y" None VNone None) sample_world).2
              eq_refl (proj1 Hinv) Hdist
              (stats_shaped_entry_ok _ "y" (proj2 Hinv)))
    as (w3 & Hwith & Hother & _).
  exists w3. split; [exact Hwith|].
  rewrite (Hother "x"%string) by discriminate.
  rewrite (Hs "x"%string). vm_compute. reflexivity.
Defined.

Lemma range_keeps_table_invariant_witness :
  ∃ w3, with_ (profile_range Bound "x" None VNone None) (mret 0) sample_world
        = (Ok 0, w3)
        ∧ stats_inv w3 ∧ stats_distinct w3.
Proof.
  destruct (enter_keeps_invariant Bound "x" None VNone None sample_world
              sample_world_inv sample_world_distinct) as (Hinv & Hdist & _).
  exact (range_keeps_table_invariant Bound "x" None VNone None Z (mret 0)
           sample_world 0
           (before_yield (profile_range Bound "x" None VNone None) sample_world).2
           eq_refl Hinv Hdist).
Defined.

Lemma exception_skips_every_pop_witness :
  ∃ w', nested_ranges Bound [("a"%string, None, VNone, None); ("b"%string, None, VNone, None)]
          (raise (UserError "boom") : M unit) (module_world sample_clock)
        = (Raise (UserError "boom"), w')
        ∧ w_native w' = [nvtxRangePushA (Some "a"%string); nvtxRangePushA (Some "b"%string)]
        ∧ contents w' _stats = [].
Proof.
  eexists. split; [|split].
  - apply (exception_skips_every_pop Bound
             [("a"%string, None, VNone, None); ("b"%string, None, VNone, None)]
             unit (raise (UserError "boom")) (module_world sample_clock)
             (UserError "boom")).
    reflexivity.
  - reflexivity.
  - reflexivity.
Defined.

Lemma nested_ranges_on_one_name_witness :
  ∃ w5, nested_ranges Bound [("f"%string, None, VNone, None); ("f"%string, None, VNone, None)]
          (time;; mret 9) (module_world sample_clock) = (Ok 9, w5)
        ∧ stat_of w5 "f" = Some [VInt 2; VFloat 24].
Proof.
  set (w3 := ((time;; mret 9)
                (enter_all Bound
                   [("f"%string, None, VNone, None); ("f"%string, None, VNone, None)]
                   (module_world sample_clock))).2).
  assert (stat_of w3 "f" = None) as Hnone by (vm_compute; reflexivity).
  destruct (nested_ranges_on_one_name Bound "f" None VNone None None VNone None
              Z (time;; mret 9) (module_world sample_clock) 9 w3 eq_refl Hnone)
    as (w5 & Hrun & Hstat).
  exists w5. split; [exact Hrun|]. rewrite Hstat. vm_compute. reflexivity.
Defined.

Lemma getstats_reads_only_witness :
  ∃ r w' r2 w'',
    getstats sample_world = (Ok r, w')
    ∧ getstats w' = (Ok r2, w'')
    ∧ r2 ≠ r
    ∧ contents w'' r2 = [("x"%string, [VInt 3; VFloat 48])]
    ∧ contents w'' r = [("x"%string, [VInt 3; VFloat 48])]
    ∧ w_native w'' = w_native sample_world.
Proof.
  destruct (getstats_reads_only sample_world (proj1 sample_world_inv))
    as (r & w' & r2 & w'' & Hg & Hg2 & _ & Hne & _ & _ & Hna & _ & _ & Hc2 & Hc1).
  exists r, w', r2, w''.
  assert (contents w' r = [("x"%string, [VInt 3; VFloat 48])]) as Hc.
  { assert (getstats sample_world = (Ok r, w')) as Hg' by exact Hg.
    vm_compute in Hg'. injection Hg' as <- <-. vm_compute. reflexivity. }
  rewrite Hc2, Hc1, Hc. by repeat split.
Defined.

Lemma store_neutral_tick : store_neutral (time;; mret tt).
Proof. intros w. eexists _, _. repeat split. Qed.

Lemma snapshot_is_not_live_witness :
  ∃ r w1 a w3,
    getstats sample_world = (Ok r, w1)
    ∧ with_ (profile_range Bound "x" None VNone None) (time;; mret tt) w1 = (Ok a, w3)
    ∧ contents w3 r = [("x"%string, [VInt 3; VFloat 48])]
    ∧ stat_of w3 "x" ≠ Some [VInt 3; VFloat 48].
Proof.
  destruct (snapshot_is_not_live Bound "x" None VNone None unit (time;; mret tt)
              sample_world sample_world_inv store_neutral_tick)
    as (r & w1 & a & w3 & Hg & Hwith & Hc & Hne).
  exists r, w1, a, w3. split; [exact Hg|]. split; [exact Hwith|].
  split; [rewrite Hc; vm_compute; reflexivity|].
  intros H. apply Hne. rewrite H. vm_compute. reflexivity.
Defined.

Lemma module_world_distinct (clock : nat → float) : stats_distinct (module_world clock).
Proof.
  unfold stats_distinct. simpl. rewrite lookup_singleton_eq. constructor.
Qed.

Lemma run_counts_each_name_witness :
  ∃ w', run_named Bound sample_named_run (module_world sample_clock) = (Ok tt, w')
        ∧ count_of w' "load" = 2 ∧ count_of w' "step" = 1 ∧ count_of w' "other" = 0.
Proof.
  assert (Forall (λ inv : string * option Z * pyval * option Z * M unit,
                    store_neutral inv.2) sample_named_run) as Hall.
  { repeat constructor; try apply store_neutral_tick.
    intros w. eexists _, _. repeat split. }
  destruct (run_counts_each_name Bound sample_named_run Hall
              (module_world sample_clock) (stats_inv_module_world sample_clock)
              (module_world_distinct sample_clock))
    as (w' & Hrun & _ & _ & Hcount).
  exists w'. split; [exact Hrun|].
  rewrite !Hcount. vm_compute. repeat split.
Defined.
